(** * Horizon history: transaction rows, the transaction query filter and the
      legacy/shadow consistency check

    A shallow embedding of
    [services/horizon/internal/db2/history/transaction.go] and of the
    collaborators it calls, followed by the properties the specification
    states about them.

    Conventions.
    - Go integers are [Z]; a conversion that can wrap ([int32(x)]) is
      written out.
    - Go strings are byte strings: [string].
    - A function that can return an error or panic returns an [outcome].
    - Packages that the file imports but that are not part of it (the XDR
      codec, the database session, [toid], [utf8], the wall clock) are the
      fields of the classes [Xdr], [Lib] and [Session]. *)

From Stdlib Require Import ZArith String Ascii List Lia DecimalString.
From stdpp Require Import base list option strings sorting gmap.

Local Open Scope string_scope.
Local Open Scope Z_scope.

(** ** Go values *)

(** [int32(x)]: conversion of an integer to a signed 32-bit one. *)
Definition int32 (x : Z) : Z := (x + 2 ^ 31) mod 2 ^ 32 - 2 ^ 31.

(** [math.MaxInt64] *)
Definition MaxInt64 : Z := 2 ^ 63 - 1.

(** [strconv.FormatInt(x, 10)] and [fmt.Sprintf("%d", x)]. *)
Definition FormatInt (x : Z) : string := NilZero.string_of_int (Z.to_int x).

(** The message of an error made by a collaborator. *)
Definition ext_error := string.

(** A Go [error] value, by where it was made. *)
Inductive error :=
| Errorf (msg : string)      (* errors.New / errors.Errorf of this package *)
| External (e : ext_error).  (* returned by a collaborator and passed on *)

(** What a call can do: return a value, return an error, or panic. *)
Inductive outcome (A : Type) :=
| Ret (a : A)
| Fail (e : error)
| Panic (msg : string).
Arguments Ret {A} a.
Arguments Fail {A} e.
Arguments Panic {A} msg.

#[global] Instance outcome_ret : MRet outcome := fun A a => Ret a.
#[global] Instance outcome_bind : MBind outcome := fun A B f m =>
  match m with
  | Ret a => f a
  | Fail e => Fail e
  | Panic msg => Panic msg
  end.

(** ** Package [strings] *)
Module strings.

(** The pieces of [s] between the occurrences of [sep], the first of them
    cut short where [sep] starts; [skip] bytes of a separator that has just
    been found are still to be passed over. *)
Fixpoint split_from (sep : string) (skip : nat) (s : string) : list string :=
  match s with
  | EmptyString => [EmptyString]
  | String c rest =>
      match skip with
      | S k => split_from sep k rest
      | O =>
          if String.prefix sep s
          then EmptyString :: split_from sep (Nat.pred (String.length sep)) rest
          else match split_from sep O rest with
               | piece :: pieces => String c piece :: pieces
               | [] => [String c EmptyString]
               end
      end
  end.

(** [strings.Split(s, sep)] for a separator that is not empty. *)
Definition Split (s sep : string) : list string := split_from sep O s.

(** [strings.Join(elems, sep)] *)
Fixpoint Join (elems : list string) (sep : string) : string :=
  match elems with
  | [] => EmptyString
  | [a] => a
  | a :: rest => a +:+ sep +:+ Join rest sep
  end.

End strings.

(** ** Package [null] *)
Module null.
(** [null.String]: a string that may be NULL. *)
Record String := NewString { String_ : string; Valid : bool }.
End null.

(** ** Package [sq] (squirrel), as far as this package drives it *)
Module sq.

(** A value bound to a [?] placeholder. *)
Inductive arg :=
| Nil
| Int (z : Z)
| Str (s : string).

(** [sq.Expr(sql, args...)] *)
Record Sqlizer := Expr { sql : string; args : list arg }.

(** A SELECT under construction. *)
Record SelectBuilder := {
  Columns : list string;
  From_ : string;
  Joins : list string;
  WhereParts : list Sqlizer;
  OrderBys : list string;
  Limit_ : option Z
}.

Definition Select (columns : string) : SelectBuilder :=
  {| Columns := [columns]; From_ := ""; Joins := []; WhereParts := [];
     OrderBys := []; Limit_ := None |}.

Definition From (b : SelectBuilder) (from : string) : SelectBuilder :=
  {| Columns := Columns b; From_ := from; Joins := Joins b;
     WhereParts := WhereParts b; OrderBys := OrderBys b; Limit_ := Limit_ b |}.

Definition JoinClause (b : SelectBuilder) (join : string) : SelectBuilder :=
  {| Columns := Columns b; From_ := From_ b; Joins := Joins b ++ [join];
     WhereParts := WhereParts b; OrderBys := OrderBys b; Limit_ := Limit_ b |}.

Definition Join (b : SelectBuilder) (join : string) : SelectBuilder :=
  JoinClause b ("JOIN " +:+ join).

Definition LeftJoin (b : SelectBuilder) (join : string) : SelectBuilder :=
  JoinClause b ("LEFT JOIN " +:+ join).

(** [b.Where(pred, args...)]: one more part of the WHERE clause; the parts
    are joined by AND in the order they were added. *)
Definition Where (b : SelectBuilder) (pred : string) (a : list arg) : SelectBuilder :=
  {| Columns := Columns b; From_ := From_ b; Joins := Joins b;
     WhereParts := WhereParts b ++ [Expr pred a];
     OrderBys := OrderBys b; Limit_ := Limit_ b |}.

End sq.

(** ** Package [toid] *)
Module toid.
Record ID := {
  LedgerSequence : Z;
  TransactionOrder : Z;
  OperationOrder : Z
}.

(** [toid.New(ledger, tx, op)] *)
Definition New (ledger tx op : Z) : ID :=
  {| LedgerSequence := ledger; TransactionOrder := tx; OperationOrder := op |}.
End toid.

(** ** Package [xdr]: the decoded structures this package reads *)
Module xdr.

Definition Hash := list Byte.byte.

(** Payloads this package only hands to the codec. *)
Record AccountId := { Ed25519 : list Byte.byte }.
Record Operation := { OperationBody : list Byte.byte }.
Record TransactionMeta := { MetaBody : list Byte.byte }.
Record LedgerEntryChanges := { ChangesBody : list Byte.byte }.

Record Memo := {
  Type_ : Z;
  Text : option string;
  Id : option Z;
  Hash_ : option Hash;
  RetHash : option Hash
}.

Record TimeBounds := { MinTime : Z; MaxTime : Z }.

Record DecoratedSignature := { Hint : list Byte.byte; Signature : list Byte.byte }.

Record Transaction := {
  SourceAccount : AccountId;
  Fee : Z;
  SeqNum : Z;
  TimeBounds_ : option TimeBounds;
  Memo_ : Memo;
  Operations : list Operation
}.

Record TransactionEnvelope := {
  Tx : Transaction;
  Signatures : list DecoratedSignature
}.

Record TransactionResultResult := { Code : Z }.

Record TransactionResult := {
  FeeCharged : Z;
  Result : TransactionResultResult
}.

Record TransactionResultPair := {
  TransactionHash : Hash;
  Result_ : TransactionResult
}.

End xdr.

(** ** Package [io] (exp/ingest/io) *)
Module io.
Record LedgerTransaction := {
  Index : Z;
  Envelope : xdr.TransactionEnvelope;
  Result : xdr.TransactionResultPair;
  Meta : xdr.TransactionMeta;
  FeeChanges : xdr.LedgerEntryChanges
}.
End io.

(** ** The collaborators *)

(** Package [xdr]: constants, union accessors and the base64 codec. *)
Class Xdr := {
  MemoTypeMemoNone : Z;
  MemoTypeMemoText : Z;
  MemoTypeMemoId : Z;
  MemoTypeMemoHash : Z;
  MemoTypeMemoReturn : Z;
  TransactionResultCodeTxSuccess : Z;
  (* how [%v] prints a [MemoType] *)
  MemoType_String : Z → string;
  (* [Must...]: the arm of the union; [None] when the call panics *)
  MustText : xdr.Memo → option string;
  MustId : xdr.Memo → option Z;
  MustHash : xdr.Memo → option xdr.Hash;
  MustRetHash : xdr.Memo → option xdr.Hash;
  Address : xdr.AccountId → string;
  (* [xdr.MarshalBase64(v)] at the four types it is called at *)
  MarshalBase64_envelope : xdr.TransactionEnvelope → ext_error + string;
  MarshalBase64_result : xdr.TransactionResult → ext_error + string;
  MarshalBase64_meta : xdr.TransactionMeta → ext_error + string;
  MarshalBase64_changes : xdr.LedgerEntryChanges → ext_error + string;
  (* [xdr.SafeUnmarshalBase64(data, &result)] *)
  SafeUnmarshalBase64 : string → ext_error + xdr.TransactionResult
}.

(** A wall-clock reading: an instant, in nanoseconds. *)
Definition Time := Z.

(** [toid], [utf8], the encoders of the standard library and the clock. *)
Class Lib := {
  (* [id.ToInt64()] *)
  ToInt64 : toid.ID → Z;
  (* [utf8.Scrub(s)] *)
  Scrub : string → string;
  (* [base64.StdEncoding.EncodeToString(b)] *)
  base64_EncodeToString : list Byte.byte → string;
  (* [hex.EncodeToString(b)] *)
  hex_EncodeToString : list Byte.byte → string;
  (* [time.Now()]: the reading the clock gives when it is read for the
     n-th time *)
  Now : nat → Time
}.

(** [t.UTC()]: the same instant, located in UTC. *)
Definition UTC (t : Time) : Time := t.

(** The database session behind [q.parent] and the helpers of [db2]. *)
Record Account := { Account_ID : Z; Account_Address : string }.

(** A row of [history_transactions] as [Select] scans it; of the
    [Transaction] struct, the fields this file reads. *)
Record Transaction := {
  ID : Z;
  TransactionHash : string;
  TxResult : string;
  Successful : option bool
}.

(** What [dest interface{}] points to. *)
Inductive Dest :=
| DestTransactions (transactions : list Transaction)   (* *[]Transaction *)
| DestOther.                                           (* anything else *)

Class Session := {
  (* [q.parent.AccountByAddress(&account, aid)] *)
  AccountByAddress : string → ext_error + Account;
  (* [q.parent.LedgerBySequence(&ledger, seq)]: the error, if any *)
  LedgerBySequence : Z → option ext_error;
  (* [db2.PageQuery] and [page.ApplyTo(sql, cursorColumn)] *)
  PageQuery : Type;
  ApplyTo : PageQuery → sq.SelectBuilder → string → sq.SelectBuilder * option ext_error;
  (* [q.parent.Select(dest, sql)]: what [dest] holds afterwards, and the
     error, if any *)
  parent_Select : Dest → sq.SelectBuilder → Dest * option ext_error
}.

(** ** Package [history]: transaction.go *)
Section history.
Context `{!Xdr, !Lib, !Session}.

(** [Transaction.IsSuccessful] (lines 24-30): an unset flag counts as
    successful. *)
Definition IsSuccessful (t : Transaction) : bool :=
  match Successful t with
  | None => true
  | Some b => b
  end.

(** [selectTransaction] (lines 335-361) *)
Definition selectTransaction : sq.SelectBuilder :=
  sq.LeftJoin
    (sq.From
       (sq.Select
          ("ht.id, " +:+
           "ht.transaction_hash, " +:+
           "ht.ledger_sequence, " +:+
           "ht.application_order, " +:+
           "ht.account, " +:+
           "ht.account_sequence, " +:+
           "ht.max_fee, " +:+
           "COALESCE(ht.fee_charged, ht.max_fee) as fee_charged, " +:+
           "ht.operation_count, " +:+
           "ht.tx_envelope, " +:+
           "ht.tx_result, " +:+
           "ht.tx_meta, " +:+
           "ht.tx_fee_meta, " +:+
           "ht.created_at, " +:+
           "ht.updated_at, " +:+
           "ht.successful, " +:+
           "array_to_string(ht.signatures, ',') AS signatures, " +:+
           "ht.memo_type, " +:+
           "ht.memo, " +:+
           "lower(ht.time_bounds) AS valid_after, " +:+
           "upper(ht.time_bounds) AS valid_before, " +:+
           "hl.closed_at AS ledger_close_time"))
       "history_transactions ht")
    "history_ledgers hl ON ht.ledger_sequence = hl.sequence".

(** [TransactionsQ]; [parent] is the session of the context. *)
Record TransactionsQ := {
  Err : option error;
  sql : sq.SelectBuilder;
  includeFailed : bool
}.

(** [Q.Transactions] (lines 69-75) *)
Definition Transactions : TransactionsQ :=
  {| Err := None; sql := selectTransaction; includeFailed := false |}.

(** [TransactionsQ.ForAccount] (lines 78-90) *)
Definition ForAccount (q : TransactionsQ) (aid : string) : TransactionsQ :=
  match AccountByAddress aid with
  | inl e =>
      {| Err := Some (External e); sql := sql q; includeFailed := includeFailed q |}
  | inr account =>
      {| Err := None;
         sql := sq.Where
                  (sq.Join (sql q)
                     "history_transaction_participants htp ON htp.history_transaction_id = ht.id")
                  "htp.history_account_id = ?" [sq.Int (Account_ID account)];
         includeFailed := includeFailed q |}
  end.

(** [TransactionsQ.ForLedger] (lines 94-110); [seq + 1] is an [int32] sum. *)
Definition ForLedger (q : TransactionsQ) (seq : Z) : TransactionsQ :=
  match LedgerBySequence seq with
  | Some e =>
      {| Err := Some (External e); sql := sql q; includeFailed := includeFailed q |}
  | None =>
      let start := {| toid.LedgerSequence := seq;
                      toid.TransactionOrder := 0; toid.OperationOrder := 0 |} in
      let end_ := {| toid.LedgerSequence := int32 (seq + 1);
                     toid.TransactionOrder := 0; toid.OperationOrder := 0 |} in
      {| Err := None;
         sql := sq.Where (sql q) "ht.id >= ? AND ht.id < ?"
                  [sq.Int (ToInt64 start); sq.Int (ToInt64 end_)];
         includeFailed := includeFailed q |}
  end.

(** [TransactionsQ.IncludeFailed] (lines 113-116) *)
Definition IncludeFailed (q : TransactionsQ) : TransactionsQ :=
  {| Err := Err q; sql := sql q; includeFailed := true |}.

(** [TransactionsQ.Page] (lines 119-126) *)
Definition Page (q : TransactionsQ) (page : PageQuery) : TransactionsQ :=
  match Err q with
  | Some _ => q
  | None =>
      let '(sql', err) := ApplyTo page (sql q) "ht.id" in
      {| Err := External <$> err; sql := sql'; includeFailed := includeFailed q |}
  end.

(** The WHERE part that keeps failed transactions out. *)
Definition successful_only : sq.Sqlizer :=
  sq.Expr "(ht.successful = true OR ht.successful IS NULL)" [].

(** The body of the loop of [Select] over the fetched rows (lines 150-173):
    the error it returns for the row [t], if any. *)
Definition check_transaction (include_failed : bool) (t : Transaction) : option error :=
  match SafeUnmarshalBase64 (TxResult t) with
  | inl err => Some (External err)
  | inr resultXDR =>
      let success :=
        Z.eqb (xdr.Code (xdr.Result resultXDR)) TransactionResultCodeTxSuccess in
      let equals_result :=
        if IsSuccessful t && negb success
        then Some (Errorf ("Corrupted data! `successful=true` but returned transaction is not success: "
                           +:+ TransactionHash t +:+ " " +:+ TxResult t))
        else if negb (IsSuccessful t) && success
        then Some (Errorf ("Corrupted data! `successful=false` but returned transaction is success: "
                           +:+ TransactionHash t +:+ " " +:+ TxResult t))
        else None in
      if negb include_failed
      then
        if negb (IsSuccessful t)
        then Some (Errorf ("Corrupted data! `include_failed=false` but returned transaction is failed: "
                           +:+ TransactionHash t))
        else if negb success
        then Some (Errorf ("Corrupted data! `include_failed=false` but returned transaction is failed: "
                           +:+ TransactionHash t +:+ " " +:+ TxResult t))
        else equals_result
      else equals_result
  end.

(** [for _, t := range *transactions { ... }]: the first error. *)
Fixpoint check_transactions (include_failed : bool) (ts : list Transaction) : option error :=
  match ts with
  | [] => None
  | t :: rest =>
      match check_transaction include_failed t with
      | Some err => Some err
      | None => check_transactions include_failed rest
      end
  end.

(** [TransactionsQ.Select] (lines 129-177): the query afterwards, what [dest]
    holds afterwards, and the error returned. *)
Definition Select (q : TransactionsQ) (dest : Dest) : TransactionsQ * Dest * option error :=
  match Err q with
  | Some e => (q, dest, Some e)
  | None =>
      let sql1 :=
        if negb (includeFailed q)
        then sq.Where (sql q) "(ht.successful = true OR ht.successful IS NULL)" []
        else sql q in
      let '(dest1, err) := parent_Select dest sql1 in
      let q1 := {| Err := External <$> err; sql := sql1; includeFailed := includeFailed q |} in
      match err with
      | Some e => (q1, dest1, Some (External e))
      | None =>
          match dest1 with
          | DestOther => (q1, dest1, Some (Errorf "dest is not *[]Transaction"))
          | DestTransactions transactions =>
              (q1, dest1, check_transactions (includeFailed q) transactions)
          end
      end
  end.

(** The calls a caller can chain on [q.Transactions()] before [Select]. *)
Inductive Call :=
| CallForAccount (aid : string)
| CallForLedger (seq : Z)
| CallIncludeFailed
| CallPage (page : PageQuery).

Definition call (q : TransactionsQ) (c : Call) : TransactionsQ :=
  match c with
  | CallForAccount aid => ForAccount q aid
  | CallForLedger seq => ForLedger q seq
  | CallIncludeFailed => IncludeFailed q
  | CallPage page => Page q page
  end.

(** [q.Transactions().c1(...).c2(...)...] *)
Definition chain (cs : list Call) : TransactionsQ := fold_left call cs Transactions.

Definition is_IncludeFailed (c : Call) : bool :=
  match c with CallIncludeFailed => true | _ => false end.

(** *** Writing rows *)

(** [formatTimeBounds] (lines 220-235) *)
Definition formatTimeBounds (transaction : io.LedgerTransaction) : option sq.Sqlizer :=
  match xdr.TimeBounds_ (xdr.Tx (io.Envelope transaction)) with
  | None => None
  | Some timeBounds =>
      if Z.eqb (xdr.MaxTime timeBounds) 0
      then Some (sq.Expr "int8range(?,?)" [sq.Int (xdr.MinTime timeBounds); sq.Nil])
      else
        let maxTime := xdr.MaxTime timeBounds in
        let maxTime := if Z.ltb MaxInt64 maxTime then MaxInt64 else maxTime in
        Some (sq.Expr "int8range(?,?)" [sq.Int (xdr.MinTime timeBounds); sq.Int maxTime])
  end.

(** [signatures] (lines 237-243) *)
Definition signatures (transaction : io.LedgerTransaction) : list string :=
  map (fun sig => base64_EncodeToString (xdr.Signature sig))
      (xdr.Signatures (io.Envelope transaction)).

(** [fmt.Errorf("invalid memo type: %v", t)], the value both memo functions
    panic with. *)
Definition invalid_memo_type (t : Z) : string := "invalid memo type: " +:+ MemoType_String t.

(** [memoType] (lines 245-260): the cases of the switch, tried in order. *)
Definition memoType (transaction : io.LedgerTransaction) : outcome string :=
  let t := xdr.Type_ (xdr.Memo_ (xdr.Tx (io.Envelope transaction))) in
  if Z.eqb t MemoTypeMemoNone then Ret "none"
  else if Z.eqb t MemoTypeMemoText then Ret "text"
  else if Z.eqb t MemoTypeMemoId then Ret "id"
  else if Z.eqb t MemoTypeMemoHash then Ret "hash"
  else if Z.eqb t MemoTypeMemoReturn then Ret "return"
  else Panic (invalid_memo_type t).

(** A [Must...] accessor: the arm, or the panic of the accessor. *)
Definition must {A} (arm : string) (v : option A) : outcome A :=
  match v with
  | Some a => Ret a
  | None => Panic ("arm " +:+ arm +:+ " is not set")
  end.

Definition NUL : string := String Ascii.zero EmptyString.

(** [memo] (lines 262-291) *)
Definition memo (transaction : io.LedgerTransaction) : outcome null.String :=
  let m := xdr.Memo_ (xdr.Tx (io.Envelope transaction)) in
  let t := xdr.Type_ m in
  if Z.eqb t MemoTypeMemoNone then Ret (null.NewString "" false)
  else if Z.eqb t MemoTypeMemoText then
    text ← must "Text" (MustText m);
    let scrubbed := Scrub text in
    let notnull := strings.Join (strings.Split scrubbed NUL) "" in
    Ret (null.NewString notnull true)
  else if Z.eqb t MemoTypeMemoId then
    id ← must "Id" (MustId m);
    Ret (null.NewString (FormatInt id) true)
  else if Z.eqb t MemoTypeMemoHash then
    hash ← must "Hash" (MustHash m);
    Ret (null.NewString (base64_EncodeToString hash) true)
  else if Z.eqb t MemoTypeMemoReturn then
    hash ← must "RetHash" (MustRetHash m);
    Ret (null.NewString (base64_EncodeToString hash) true)
  else Panic (invalid_memo_type t).

(** The [map[string]interface{}] that [transactionToMap] builds: one field
    per key. *)
Record Row := {
  id : Z;
  transaction_hash : string;
  ledger_sequence : Z;
  application_order : Z;
  account : string;
  account_sequence : string;
  max_fee : Z;
  fee_charged : Z;
  operation_count : Z;
  tx_envelope : string;
  tx_result : string;
  tx_meta : string;
  tx_fee_meta : string;
  signatures_ : list string;
  time_bounds : option sq.Sqlizer;
  memo_type : string;
  memo_ : null.String;
  created_at : Time;
  updated_at : Time;
  successful : bool
}.

(** [xdr.MarshalBase64(v)] and the [if err != nil { return nil, err }]
    after it. *)
Definition marshalled (r : ext_error + string) : outcome string :=
  match r with
  | inl err => Fail (External err)
  | inr s => Ret s
  end.

(** [transactionToMap(transaction, sequence)] (lines 293-333), called when the
    clock has been read [clock] times: the row and the number of times the clock has
    been read afterwards. *)
Definition transactionToMap (transaction : io.LedgerTransaction) (sequence : Z) (clock : nat)
  : outcome (Row * nat) :=
  envelopeBase64 ← marshalled (MarshalBase64_envelope (io.Envelope transaction));
  resultBase64 ← marshalled (MarshalBase64_result (xdr.Result_ (io.Result transaction)));
  metaBase64 ← marshalled (MarshalBase64_meta (io.Meta transaction));
  feeMetaBase64 ← marshalled (MarshalBase64_changes (io.FeeChanges transaction));
  mt ← memoType transaction;
  m ← memo transaction;
  Ret ({| id := ToInt64 (toid.New (int32 sequence) (int32 (io.Index transaction)) 0);
          transaction_hash :=
            hex_EncodeToString (xdr.TransactionHash (io.Result transaction));
          ledger_sequence := sequence;
          application_order := int32 (io.Index transaction);
          account := Address (xdr.SourceAccount (xdr.Tx (io.Envelope transaction)));
          account_sequence := FormatInt (xdr.SeqNum (xdr.Tx (io.Envelope transaction)));
          max_fee := int32 (xdr.Fee (xdr.Tx (io.Envelope transaction)));
          fee_charged := int32 (xdr.FeeCharged (xdr.Result_ (io.Result transaction)));
          operation_count :=
            int32 (Z.of_nat (length (xdr.Operations (xdr.Tx (io.Envelope transaction)))));
          tx_envelope := envelopeBase64;
          tx_result := resultBase64;
          tx_meta := metaBase64;
          tx_fee_meta := feeMetaBase64;
          signatures_ := signatures transaction;
          time_bounds := formatTimeBounds transaction;
          memo_type := mt;
          memo_ := m;
          created_at := UTC (Now clock);
          updated_at := UTC (Now (S clock));
          successful :=
            Z.eqb (xdr.Code (xdr.Result (xdr.Result_ (io.Result transaction))))
                  TransactionResultCodeTxSuccess |},
       S (S clock)).

End history.

(** ** The check of the shadow table against the legacy table *)
Module ShadowConsistencyChecker.

(** Modelled from the spec: the row type of [CheckExpTransactions], which is
    not in transaction.go; the fields [TransactionRow] has in the data
    model (section 3), [rowId] standing for [id]. *)
Record TransactionRow := {
  rowId : Z;
  hash : string;
  ledgerSequence : Z;
  applicationOrder : Z;
  sourceAccount : string;
  sourceAccountSequence : string;
  feeMax : Z;
  feeCharged : option Z;
  operationCount : Z;
  envelopeBlob : string;
  resultBlob : string;
  metaBlob : string;
  feeChangesBlob : string;
  signatures : list string;
  memoType : string;
  memoValue : option string;
  validAfter : option Z;
  validBefore : option Z;
  successful : bool;
  createdAt : Z;
  updatedAt : Z
}.

(** The two tables of the storage boundary (section 6). *)
Record Store := {
  history_transactions : list TransactionRow;       (* legacy *)
  exp_history_transactions : list TransactionRow    (* shadow *)
}.

(** The columns a mutation can hit, as the test of the check lists them. *)
Inductive Column :=
| col_id | col_transaction_hash | col_account | col_account_sequence
| col_max_fee | col_fee_charged | col_operation_count
| col_tx_envelope | col_tx_result | col_tx_meta | col_tx_fee_meta
| col_signatures | col_valid_after | col_valid_before
| col_memo_type | col_memo | col_successful.

(** The rows [r] and [r'] differ in column [c]. *)
Definition differ_at (c : Column) (r r' : TransactionRow) : Prop :=
  match c with
  | col_id => rowId r ≠ rowId r'
  | col_transaction_hash => hash r ≠ hash r'
  | col_account => sourceAccount r ≠ sourceAccount r'
  | col_account_sequence => sourceAccountSequence r ≠ sourceAccountSequence r'
  | col_max_fee => feeMax r ≠ feeMax r'
  | col_fee_charged => feeCharged r ≠ feeCharged r'
  | col_operation_count => operationCount r ≠ operationCount r'
  | col_tx_envelope => envelopeBlob r ≠ envelopeBlob r'
  | col_tx_result => resultBlob r ≠ resultBlob r'
  | col_tx_meta => metaBlob r ≠ metaBlob r'
  | col_tx_fee_meta => feeChangesBlob r ≠ feeChangesBlob r'
  | col_signatures => signatures r ≠ signatures r'
  | col_valid_after => validAfter r ≠ validAfter r'
  | col_valid_before => validBefore r ≠ validBefore r'
  | col_memo_type => memoType r ≠ memoType r'
  | col_memo => memoValue r ≠ memoValue r'
  | col_successful => successful r ≠ successful r'
  end.

Section check.
Context `{!Lib}.

(** Whether [createdAt] and [updatedAt] take part in the comparison.
    Section 4.5 compares every column of the data model; the test of the
    check writes one transaction to both tables at two readings of the
    clock and expects a valid verdict. The properties below hold either
    way. *)
Variable stamps : bool.

(** Modelled from the spec: step 1 of the algorithm of section 4.5 with
    section 4.2, the half-open key range [pack(seq,0,0), pack(seq+1,0,0))
    of a ledger; [pack] is [toid]'s [ToInt64]. *)
Definition first_key (seq : Z) : Z := ToInt64 (toid.New seq 0 0).
Definition in_ledger (seq : Z) (r : TransactionRow) : Prop :=
  first_key seq ≤ rowId r ∧ rowId r < first_key (seq + 1).

#[global] Instance in_ledger_dec seq r : Decision (in_ledger seq r) :=
  and_dec (Z_le_dec _ _) (Z_lt_dec _ _).

Definition by_id (r1 r2 : TransactionRow) : Prop := rowId r1 ≤ rowId r2.
#[global] Instance by_id_dec : RelDecision by_id := fun r1 r2 => Z_le_dec _ _.
#[global] Instance by_id_transitive : Transitive by_id :=
  fun r1 r2 r3 => Z.le_trans (rowId r1) (rowId r2) (rowId r3).
#[global] Instance by_id_total : Total by_id :=
  fun r1 r2 => Z.le_ge_cases (rowId r1) (rowId r2).

(** Modelled from the spec: step 2, the rows of a table in that range,
    ordered by [id]. *)
Definition fetch (seq : Z) (table : list TransactionRow) : list TransactionRow :=
  merge_sort by_id (filter (in_ledger seq) table).

(** Modelled from the spec: the columns two corresponding rows must agree
    on in step 4. *)
Definition columns (r : TransactionRow) :=
  (rowId r, hash r, ledgerSequence r, applicationOrder r,
   sourceAccount r, sourceAccountSequence r, feeMax r, feeCharged r,
   operationCount r, envelopeBlob r, resultBlob r, metaBlob r,
   feeChangesBlob r, signatures r, memoType r, memoValue r,
   validAfter r, validBefore r, successful r,
   if stamps then Some (createdAt r, updatedAt r) else None).

Definition same_row (r1 r2 : TransactionRow) : bool :=
  bool_decide (columns r1 = columns r2).

(** Modelled from the spec: step 4, row by row in order. *)
Fixpoint rows_agree (legacy shadow : list TransactionRow) : bool :=
  match legacy, shadow with
  | [], [] => true
  | r1 :: legacy', r2 :: shadow' => same_row r1 r2 && rows_agree legacy' shadow'
  | _, _ => false
  end.

(** Modelled from the spec: [CheckExpTransactions(seq)], the check of
    section 4.5, which is not in transaction.go (only its test is): the
    verdict and the store afterwards. *)
Definition CheckExpTransactions (store : Store) (seq : Z) : bool * Store :=
  let legacy := fetch seq (history_transactions store) in
  let shadow := fetch seq (exp_history_transactions store) in
  if negb (Nat.eqb (length legacy) (length shadow))
  then (false, store)
  else (rows_agree legacy shadow, store).

End check.

End ShadowConsistencyChecker.

(** ** Collaborators to run the program on

    Concrete collaborators for the worked examples: the standard encoders,
    a [toid] and a [utf8] that follow their contracts, a ticking clock, a
    codec that knows a few payloads, and a session over a table held in
    memory. *)
Module run.

(** [hex.EncodeToString] *)
Definition hex_digit (n : N) : ascii :=
  if (n <? 10)%N then ascii_of_N (48 + n) else ascii_of_N (87 + n).

Fixpoint hex (b : list Byte.byte) : string :=
  match b with
  | [] => EmptyString
  | x :: rest =>
      let n := Byte.to_N x in
      String (hex_digit (n / 16)) (String (hex_digit (n mod 16)) (hex rest))
  end.

(** [base64.StdEncoding.EncodeToString] *)
Definition base64_digit (n : N) : ascii :=
  if (n <? 26)%N then ascii_of_N (65 + n)
  else if (n <? 52)%N then ascii_of_N (71 + n)
  else if (n <? 62)%N then ascii_of_N (n - 4)
  else if (n =? 62)%N then "+"%char else "/"%char.

Fixpoint base64_N (b : list N) : string :=
  match b with
  | [] => EmptyString
  | [x] =>
      String (base64_digit (x / 4)) (String (base64_digit (x mod 4 * 16)) "==")
  | [x; y] =>
      String (base64_digit (x / 4))
        (String (base64_digit (x mod 4 * 16 + y / 16))
           (String (base64_digit (y mod 16 * 4)) "="))
  | x :: y :: z :: rest =>
      String (base64_digit (x / 4))
        (String (base64_digit (x mod 4 * 16 + y / 16))
           (String (base64_digit (y mod 16 * 4 + z / 64))
              (String (base64_digit (z mod 64)) (base64_N rest))))
  end%N.

Definition base64 (b : list Byte.byte) : string := base64_N (map Byte.to_N b).

(** Modelled from the spec: [toid]'s [ToInt64], which is not among the
    sources; section 4.2, a signed 64-bit key with the ledger sequence in
    the most significant 32 bits. Of the 32 bits below, 20 hold the
    transaction index and 12 the operation index: the "some max" of the
    spec. *)
Definition pack (k : toid.ID) : Z :=
  toid.LedgerSequence k * 2 ^ 32 + toid.TransactionOrder k * 2 ^ 12 + toid.OperationOrder k.

(** The triples [pack] is meant for. *)
Definition packable (k : toid.ID) : Prop :=
  0 ≤ toid.LedgerSequence k < 2 ^ 31 ∧
  0 ≤ toid.TransactionOrder k < 2 ^ 20 ∧
  0 ≤ toid.OperationOrder k < 2 ^ 12.

(** Modelled from the spec: [utf8.Scrub], which is not among the sources;
    section 4.1, every invalid-encoding sequence replaced by a safe
    substitute, here U+FFFD, one per byte that starts no well-formed
    UTF-8 sequence. *)
Definition in_range (lo hi : N) (c : ascii) : bool :=
  ((lo <=? N_of_ascii c) && (N_of_ascii c <=? hi))%N.

(** The length of the well-formed UTF-8 sequence [s] starts with; 0 when
    it starts with none. *)
Definition utf8_length (s : string) : nat :=
  match s with
  | EmptyString => 0
  | String a rest =>
      if in_range 0 127 a then 1
      else if in_range 194 223 a then
        match rest with
        | String b _ => if in_range 128 191 b then 2 else 0
        | _ => 0
        end
      else if in_range 224 239 a then
        match rest with
        | String b (String c _) =>
            let lo := if in_range 224 224 a then 160%N else 128%N in
            let hi := if in_range 237 237 a then 159%N else 191%N in
            if in_range lo hi b && in_range 128 191 c then 3 else 0
        | _ => 0
        end
      else if in_range 240 244 a then
        match rest with
        | String b (String c (String d _)) =>
            let lo := if in_range 240 240 a then 144%N else 128%N in
            let hi := if in_range 244 244 a then 143%N else 191%N in
            if in_range lo hi b && in_range 128 191 c && in_range 128 191 d
            then 4 else 0
        | _ => 0
        end
      else 0
  end%nat.

Definition replacement_character : string :=
  String (ascii_of_N 239) (String (ascii_of_N 191) (String (ascii_of_N 189) EmptyString)).

Fixpoint scrub_from (keep : nat) (s : string) : string :=
  match s with
  | EmptyString => EmptyString
  | String c rest =>
      match keep with
      | S k => String c (scrub_from k rest)
      | O =>
          match utf8_length s with
          | O => replacement_character +:+ scrub_from O rest
          | S k => String c (scrub_from k rest)
          end
      end
  end.

Definition scrub (s : string) : string := scrub_from O s.

Definition lib : Lib :=
  {| ToInt64 := pack;
     Scrub := scrub;
     base64_EncodeToString := base64;
     hex_EncodeToString := hex;
     Now := fun n => 1575158400000000000 + 1000 * Z.of_nat n |}.

(** Two result payloads: a transaction that succeeded and one that failed
    with a bad sequence number, each charged a fee of 100. *)
Definition success_result : string := "AAAAAAAAAGQAAAAAAAAAAQAAAAAAAAABAAAAAAAAAAA=".
Definition failed_result : string := "AAAAAAAAAGT////7AAAAAA==".

Definition decode_result (data : string) : ext_error + xdr.TransactionResult :=
  if String.eqb data success_result
  then inr {| xdr.FeeCharged := 100; xdr.Result := {| xdr.Code := 0 |} |}
  else if String.eqb data failed_result
  then inr {| xdr.FeeCharged := 100; xdr.Result := {| xdr.Code := -5 |} |}
  else inl "illegal base64 data".

Definition encode_result (r : xdr.TransactionResult) : ext_error + string :=
  if Z.eqb (xdr.Code (xdr.Result r)) 0 then inr success_result
  else if Z.eqb (xdr.Code (xdr.Result r)) (-5) then inr failed_result
  else inl "xdr: unsupported result".

(** The envelope codec enforces the 28-byte limit of a text memo. *)
Definition encode_envelope (e : xdr.TransactionEnvelope) : ext_error + string :=
  match xdr.Text (xdr.Memo_ (xdr.Tx e)) with
  | Some text =>
      if (28 <? String.length text)%nat
      then inl "xdr: memo text exceeds the maximum size"
      else inr ("envelope:" +:+ FormatInt (xdr.SeqNum (xdr.Tx e)))
  | None => inr ("envelope:" +:+ FormatInt (xdr.SeqNum (xdr.Tx e)))
  end.

Definition wire : Xdr :=
  {| MemoTypeMemoNone := 0;
     MemoTypeMemoText := 1;
     MemoTypeMemoId := 2;
     MemoTypeMemoHash := 3;
     MemoTypeMemoReturn := 4;
     TransactionResultCodeTxSuccess := 0;
     MemoType_String := FormatInt;
     MustText := xdr.Text;
     MustId := xdr.Id;
     MustHash := xdr.Hash_;
     MustRetHash := xdr.RetHash;
     Address := fun a => "G" +:+ hex (xdr.Ed25519 a);
     MarshalBase64_envelope := encode_envelope;
     MarshalBase64_result := encode_result;
     MarshalBase64_meta := fun m => inr (base64 (xdr.MetaBody m));
     MarshalBase64_changes := fun c => inr (base64 (xdr.ChangesBody c));
     SafeUnmarshalBase64 := decode_result |}.

(** Whether the row [t] satisfies a part of the WHERE clause; a part the
    table cannot judge (the participants join) lets every row through. *)
Definition holds (part : sq.Sqlizer) (t : Transaction) : bool :=
  if String.eqb (sq.sql part) "(ht.successful = true OR ht.successful IS NULL)"
  then IsSuccessful t
  else if String.eqb (sq.sql part) "ht.id >= ? AND ht.id < ?"
  then match sq.args part with
       | [sq.Int lo; sq.Int hi] => (lo <=? ID t) && (ID t <? hi)
       | _ => false
       end
  else true.

(** A page: at most [n] rows. *)
Definition limit_to (n : Z) (b : sq.SelectBuilder) : sq.SelectBuilder :=
  {| sq.Columns := sq.Columns b; sq.From_ := sq.From_ b; sq.Joins := sq.Joins b;
     sq.WhereParts := sq.WhereParts b; sq.OrderBys := sq.OrderBys b ++ ["ht.id asc"];
     sq.Limit_ := Some n |}.

(** A session over [table], with one known account and the ledgers 1 to
    1000. *)
Definition session (table : list Transaction) : Session :=
  {| AccountByAddress := fun aid =>
       if String.eqb aid "GA5WBPYA5Y4WAEHXWR2UKO2UO4BUGHUQ74EUPKON2QHV4WRHOIRNKKH2"
       then inr {| Account_ID := 7; Account_Address := aid |}
       else inl "sql: no rows in result set";
     LedgerBySequence := fun seq =>
       if (1 <=? seq) && (seq <=? 1000) then None
       else Some "sql: no rows in result set";
     PageQuery := Z;
     ApplyTo := fun page b cursor =>
       if page <? 0 then (b, Some "invalid limit") else (limit_to page b, None);
     parent_Select := fun dest b =>
       (DestTransactions
          (List.filter (fun t => forallb (fun part => holds part t) (sq.WhereParts b)) table),
        None) |}.

Definition hash_a := "a2dabf4e9d1642722602272e178a37c973c9177b957da86192a99b3e9f3a9aa4".
Definition hash_b := "aa168f12124b7c196c0adaee7c73a64d37f99428cacb59a91ff389626845e7cf".
Definition hash_c := "2374e99349b9ef7dba9a5db3339b78fda8f34777b1af33ba468ad5c0df946d4d".

(** Rows of ledger 3: one successful, one failed, one from before the
    flag existed. *)
Definition sound_table : list Transaction :=
  [ {| ID := pack (toid.New 3 1 0); TransactionHash := hash_a;
       TxResult := success_result; Successful := Some true |};
    {| ID := pack (toid.New 3 2 0); TransactionHash := hash_b;
       TxResult := failed_result; Successful := Some false |};
    {| ID := pack (toid.New 3 3 0); TransactionHash := hash_c;
       TxResult := success_result; Successful := None |} ].

(** A transaction to normalize. *)
Definition memo_of (t : Z) (text : option string) : xdr.Memo :=
  {| xdr.Type_ := t; xdr.Text := text; xdr.Id := None;
     xdr.Hash_ := None; xdr.RetHash := None |}.

Definition transaction_with (m : xdr.Memo) (bounds : option xdr.TimeBounds) (code : Z)
  : io.LedgerTransaction :=
  {| io.Index := 1;
     io.Envelope :=
       {| xdr.Tx := {| xdr.SourceAccount := {| xdr.Ed25519 := [Byte.x28; Byte.x92] |};
                       xdr.Fee := 100;
                       xdr.SeqNum := 78621794419880145;
                       xdr.TimeBounds_ := bounds;
                       xdr.Memo_ := m;
                       xdr.Operations := [ {| xdr.OperationBody := [] |} ] |};
          xdr.Signatures := [ {| xdr.Hint := [Byte.x7f]; xdr.Signature := [Byte.x24; Byte.x5a] |} ] |};
     io.Result :=
       {| xdr.TransactionHash := [Byte.xea; Byte.x1e];
          xdr.Result_ := {| xdr.FeeCharged := 100; xdr.Result := {| xdr.Code := code |} |} |};
     io.Meta := {| xdr.MetaBody := [Byte.x00] |};
     io.FeeChanges := {| xdr.ChangesBody := [] |} |}.

(** A codec that refuses a memo whose type it does not know, as an encoder
    of a union does for a discriminant outside its arms. *)
Definition strict_wire : Xdr :=
  {| MemoTypeMemoNone := 0;
     MemoTypeMemoText := 1;
     MemoTypeMemoId := 2;
     MemoTypeMemoHash := 3;
     MemoTypeMemoReturn := 4;
     TransactionResultCodeTxSuccess := 0;
     MemoType_String := FormatInt;
     MustText := xdr.Text;
     MustId := xdr.Id;
     MustHash := xdr.Hash_;
     MustRetHash := xdr.RetHash;
     Address := fun a => "G" +:+ hex (xdr.Ed25519 a);
     MarshalBase64_envelope := fun e =>
       if (0 <=? xdr.Type_ (xdr.Memo_ (xdr.Tx e))) && (xdr.Type_ (xdr.Memo_ (xdr.Tx e)) <=? 4)
       then encode_envelope e
       else inl "xdr: invalid union switch";
     MarshalBase64_result := encode_result;
     MarshalBase64_meta := fun m => inr (base64 (xdr.MetaBody m));
     MarshalBase64_changes := fun c => inr (base64 (xdr.ChangesBody c));
     SafeUnmarshalBase64 := decode_result |}.

(** The session over [sound_table]. *)
Definition db : Session := session sound_table.

(** Rows of ledger 123 for the consistency check. *)
Definition stored (index : Z) (memo : option string) : ShadowConsistencyChecker.TransactionRow :=
  {| ShadowConsistencyChecker.rowId := pack (toid.New 123 index 0);
     ShadowConsistencyChecker.hash := if index =? 1 then hash_a else hash_b;
     ShadowConsistencyChecker.ledgerSequence := 123;
     ShadowConsistencyChecker.applicationOrder := index;
     ShadowConsistencyChecker.sourceAccount :=
       "GA5WBPYA5Y4WAEHXWR2UKO2UO4BUGHUQ74EUPKON2QHV4WRHOIRNKKH2";
     ShadowConsistencyChecker.sourceAccountSequence := FormatInt (78621794419880144 + index);
     ShadowConsistencyChecker.feeMax := 100;
     ShadowConsistencyChecker.feeCharged := Some 100;
     ShadowConsistencyChecker.operationCount := 1;
     ShadowConsistencyChecker.envelopeBlob := "envelope:" +:+ FormatInt index;
     ShadowConsistencyChecker.resultBlob := success_result;
     ShadowConsistencyChecker.metaBlob := "AA==";
     ShadowConsistencyChecker.feeChangesBlob := "";
     ShadowConsistencyChecker.signatures := ["JFo="];
     ShadowConsistencyChecker.memoType := "text";
     ShadowConsistencyChecker.memoValue := memo;
     ShadowConsistencyChecker.validAfter := None;
     ShadowConsistencyChecker.validBefore := None;
     ShadowConsistencyChecker.successful := true;
     ShadowConsistencyChecker.createdAt := 1575158400000000000;
     ShadowConsistencyChecker.updatedAt := 1575158400000001000 |}.

(** The two tables with the same two rows, stored in different orders. *)
Definition consistent : ShadowConsistencyChecker.Store :=
  {| ShadowConsistencyChecker.history_transactions :=
       [stored 1 (Some "109530325"); stored 2 (Some "hello world")];
     ShadowConsistencyChecker.exp_history_transactions :=
       [stored 2 (Some "hello world"); stored 1 (Some "109530325")] |}.

(** A row whose result payload is no base64 at all, marked successful. *)
Definition unreadable : Transaction :=
  {| ID := pack (toid.New 3 4 0); TransactionHash := hash_b;
     TxResult := "result"; Successful := Some true |}.

(** A row from before the flag existed whose result is a failure. *)
Definition unset_failed : Transaction :=
  {| ID := pack (toid.New 3 5 0); TransactionHash := hash_b;
     TxResult := failed_result; Successful := None |}.

(** The session over a table that holds [unreadable]. *)
Definition unreadable_db : Session := session [unreadable].

End run.

(** ** Vocabulary of the properties *)

(** [s] without the bytes equal to [c]. *)
Fixpoint without (c : ascii) (s : string) : string :=
  match s with
  | EmptyString => EmptyString
  | String a rest => if Ascii.eqb a c then without c rest else String a (without c rest)
  end.

(** The byte [c] occurs in [s]. *)
Fixpoint occurs (c : ascii) (s : string) : Prop :=
  match s with
  | EmptyString => False
  | String a rest => a = c ∨ occurs c rest
  end.


(** The lexicographic order of the triples (ledger, transaction, operation). *)
Definition lex_lt (a b : toid.ID) : Prop :=
  toid.LedgerSequence a < toid.LedgerSequence b ∨
  (toid.LedgerSequence a = toid.LedgerSequence b ∧
   (toid.TransactionOrder a < toid.TransactionOrder b ∨
    (toid.TransactionOrder a = toid.TransactionOrder b ∧
     toid.OperationOrder a < toid.OperationOrder b))).

(** An error that reports corrupted data. *)
Definition DataCorruption (e : error) : Prop :=
  ∃ detail, e = Errorf ("Corrupted data! " +:+ detail).

(** The three conditions of section 4.4 under which a fetched row is
    reported, for a row whose flag reads [flag] and whose decoded result is a
    success or not ([success]). *)
Definition reported (include_failed flag success : bool) : Prop :=
  (include_failed = false ∧ (success = false ∨ flag = false)) ∨
  (flag = true ∧ success = false) ∨
  (flag = false ∧ success = true).

(** The first of the four serializations of [transactionToMap] to fail. *)
Definition serialization_error `{!Xdr} (transaction : io.LedgerTransaction) : option ext_error :=
  match MarshalBase64_envelope (io.Envelope transaction) with
  | inl e => Some e
  | inr _ =>
      match MarshalBase64_result (xdr.Result_ (io.Result transaction)) with
      | inl e => Some e
      | inr _ =>
          match MarshalBase64_meta (io.Meta transaction) with
          | inl e => Some e
          | inr _ =>
              match MarshalBase64_changes (io.FeeChanges transaction) with
              | inl e => Some e
              | inr _ => None
              end
          end
      end
  end.

(** The memo type [t] is one of the five the protocol knows. *)
Definition known_memo_type `{!Xdr} (t : Z) : Prop :=
  t = MemoTypeMemoNone ∨ t = MemoTypeMemoText ∨ t = MemoTypeMemoId ∨
  t = MemoTypeMemoHash ∨ t = MemoTypeMemoReturn.

(** ** Package [history]: the other queries and the writers *)

(** [sq.Placeholders(n)]: n question marks, separated by commas. *)
Definition Placeholders (n : nat) : string := strings.Join (replicate n "?") ",".

(** [b.Where(map[string]interface{}{column: values})] for a list that is not
    empty: squirrel renders the map as the test [column IN (?,...,?)], bound
    to the values. *)
Definition Where_in (b : sq.SelectBuilder) (column : string) (values : list Z)
  : sq.SelectBuilder :=
  sq.Where b (column +:+ " IN (" +:+ Placeholders (length values) +:+ ")")
           (sq.Int <$> values).

(** An INSERT under construction (squirrel's [InsertBuilder]). *)
Record InsertBuilder := {
  Into : string;
  InsertColumns : list string;
  InsertValues : list (list sq.arg);
  Suffixes : list string
}.

Definition Insert (into : string) : InsertBuilder :=
  {| Into := into; InsertColumns := []; InsertValues := []; Suffixes := [] |}.

Definition Columns (b : InsertBuilder) (columns : list string) : InsertBuilder :=
  {| Into := Into b; InsertColumns := (InsertColumns b ++ columns)%list;
     InsertValues := InsertValues b; Suffixes := Suffixes b |}.

Definition Values (b : InsertBuilder) (values : list sq.arg) : InsertBuilder :=
  {| Into := Into b; InsertColumns := InsertColumns b;
     InsertValues := (InsertValues b ++ [values])%list; Suffixes := Suffixes b |}.

Definition Suffix (b : InsertBuilder) (suffix : string) : InsertBuilder :=
  {| Into := Into b; InsertColumns := InsertColumns b;
     InsertValues := InsertValues b; Suffixes := (Suffixes b ++ [suffix])%list |}.

(** The session, for the statements of the writers: [q.Select(&accounts, sql)]
    of an INSERT that returns rows. *)
Class Accounts := {
  Select_accounts : InsertBuilder → list Account * option ext_error
}.

Section writers.
Context `{!Xdr, !Lib, !Session, !Accounts}.

(** [Q.TransactionsByIDs] (lines 44-64). [q.Select] is the session's
    [Select], which [TransactionsQ] reaches as [q.parent.Select]; it fills the
    slice of transactions it is given. *)
Definition TransactionsByIDs (ids : list Z) : error + gmap Z Transaction :=
  if Nat.eqb (length ids) 0
  then inl (Errorf "no id arguments provided")
  else
    let sql := Where_in selectTransaction "ht.id" ids in
    let '(dest, err) := parent_Select (DestTransactions []) sql in
    match err with
    | Some e => inl (External e)
    | None =>
        let transactions :=
          match dest with
          | DestTransactions ts => ts
          | DestOther => []
          end in
        inr (fold_left (fun byID transaction => <[ID transaction := transaction]> byID)
                       transactions ∅)
    end.

(** The statement [CreateExpAccounts] builds (part_000, lines 18-22). *)
Definition create_accounts_sql (addresses : list string) : InsertBuilder :=
  let sql := Columns (Insert "history_accounts") ["address"] in
  let sql := fold_left (fun sql address => Values sql [sq.Str address]) addresses sql in
  Suffix sql "ON CONFLICT (address) DO UPDATE SET address=EXCLUDED.address RETURNING *".

(** [Q.CreateExpAccounts] (part_000, lines 16-34) *)
Definition CreateExpAccounts (addresses : list string) : error + gmap string Z :=
  let '(accounts, err) := Select_accounts (create_accounts_sql addresses) in
  match err with
  | Some e => inl (External e)
  | None =>
      inr (fold_left
             (fun addressToID account =>
                <[Account_Address account := Account_ID account]> addressToID)
             accounts ∅)
  end.

End writers.

(** [db.BatchInsertBuilder], which the writers wrap: [builder.Row(m)] for a
    row of transactions. *)
Class Batch := {
  BatchInsertBuilder : Type;
  builder_Row : BatchInsertBuilder → Row → BatchInsertBuilder * option ext_error
}.

Section batch.
Context `{!Xdr, !Lib, !Batch}.

(** [transactionBatchInsertBuilder.Add] (lines 207-214), called when the
    clock has been read [clock] times: the builder afterwards, and what the
    call does (the number of times the clock has been read afterwards, when
    it returns no error). *)
Definition Add (i : BatchInsertBuilder) (transaction : io.LedgerTransaction)
    (sequence : Z) (clock : nat) : BatchInsertBuilder * outcome nat :=
  match transactionToMap transaction sequence clock with
  | Ret (m, clock') =>
      let '(i', err) := builder_Row i m in
      (i', match err with
           | Some e => Fail (External e)
           | None => Ret clock'
           end)
  | Fail err => (i, Fail err)
  | Panic msg => (i, Panic msg)
  end.

End batch.

(** ** More vocabulary *)

(** The rows of [rows] that [key] maps to [k]. *)
Definition with_key {A K} `{EqDecision K} (key : A → K) (k : K) (rows : list A) : list A :=
  filter (fun row => key row = k) rows.

(** A fetched row that passes the checks of [Select]: its payload decodes,
    its flag agrees with the decoded result, and it is successful unless
    failed rows are included. *)
Definition sound_row `{!Xdr} (include_failed : bool) (t : Transaction) : Prop :=
  ∃ resultXDR,
    SafeUnmarshalBase64 (TxResult t) = inr resultXDR ∧
    IsSuccessful t =
      Z.eqb (xdr.Code (xdr.Result resultXDR)) TransactionResultCodeTxSuccess ∧
    (include_failed = false → IsSuccessful t = true).

(** The parts a call adds to the WHERE clause. *)
Definition parts_of `{!Lib, !Session} (c : Call) : list sq.Sqlizer :=
  match c with
  | CallForAccount aid =>
      match AccountByAddress aid with
      | inr account => [sq.Expr "htp.history_account_id = ?" [sq.Int (Account_ID account)]]
      | inl _ => []
      end
  | CallForLedger seq =>
      match LedgerBySequence seq with
      | None =>
          [sq.Expr "ht.id >= ? AND ht.id < ?"
                   [sq.Int (ToInt64 (toid.New seq 0 0));
                    sq.Int (ToInt64 (toid.New (int32 (seq + 1)) 0 0))]]
      | Some _ => []
      end
  | CallIncludeFailed => []
  | CallPage _ => []
  end.

Definition is_Page `{!Session} (c : Call) : bool :=
  match c with CallPage _ => true | _ => false end.

(** A written row as a query reads it back: the columns [Select] looks at,
    stored as they were written. *)
Definition read_back (row : Row) : Transaction :=
  {| ID := id row; TransactionHash := transaction_hash row;
     TxResult := tx_result row; Successful := Some (successful row) |}.

(** More collaborators to run the program on. *)
Module ledger.

(** A session that files accounts under consecutive ids, in the order it is
    asked for them. *)
Definition registrar : Accounts :=
  {| Select_accounts := fun b =>
       (imap (fun i values =>
                {| Account_ID := 100 + Z.of_nat i;
                   Account_Address :=
                     match values with
                     | [sq.Str address] => address
                     | _ => ""
                     end |})
             (InsertValues b),
        None) |}.

(** A builder that keeps the rows it is given, and refuses one whose fee is
    negative. *)
Definition rows : Batch :=
  {| BatchInsertBuilder := list Row;
     builder_Row := fun b m =>
       if max_fee m <? 0 then (b, Some "pq: value out of range")
       else ((b ++ [m])%list, None) |}.

(** Whether a row satisfies a part of the WHERE clause, the test of the id
    against a list included. *)
Definition holds (part : sq.Sqlizer) (t : Transaction) : bool :=
  if String.prefix "ht.id IN (" (sq.sql part)
  then existsb (fun a => match a with sq.Int z => z =? ID t | _ => false end)
               (sq.args part)
  else run.holds part t.

(** The session over [run.sound_table] that also answers queries by id. *)
Definition archive : Session :=
  {| AccountByAddress := @AccountByAddress run.db;
     LedgerBySequence := @LedgerBySequence run.db;
     PageQuery := Z;
     ApplyTo := @ApplyTo run.db;
     parent_Select := fun dest b =>
       (DestTransactions
          (List.filter (fun t => forallb (fun part => holds part t) (sq.WhereParts b))
                       run.sound_table),
        None) |}.

(** A transaction that declares the fee [fee]. *)
Definition with_fee (fee : Z) : io.LedgerTransaction :=
  let base := run.transaction_with (run.memo_of 0 None) None 0 in
  {| io.Index := io.Index base;
     io.Envelope :=
       {| xdr.Tx :=
            {| xdr.SourceAccount := xdr.SourceAccount (xdr.Tx (io.Envelope base));
               xdr.Fee := fee;
               xdr.SeqNum := xdr.SeqNum (xdr.Tx (io.Envelope base));
               xdr.TimeBounds_ := None;
               xdr.Memo_ := xdr.Memo_ (xdr.Tx (io.Envelope base));
               xdr.Operations := xdr.Operations (xdr.Tx (io.Envelope base)) |};
          xdr.Signatures := xdr.Signatures (io.Envelope base) |};
     io.Result := io.Result base;
     io.Meta := io.Meta base;
     io.FeeChanges := io.FeeChanges base |}.

End ledger.

(** The case of [transactionToMap_outcome] in which a serialization fails. *)
Ltac serialization_fails :=
  split; [intros e; split;
            [intros [= <-]; eauto | intros (x & [= <-] & ->); reflexivity]|];
  split; [discriminate|];
  split; [split; [intros (? & ? & ?); discriminate|intros (? & _); discriminate]
         |discriminate].

(** * Properties *)

(** ** The row normalizer *)
Section normalizer.
Context `{!Xdr, !Lib}.

Implicit Types (transaction : io.LedgerTransaction) (row : Row).

Lemma marshalled_Ret r s : marshalled r = Ret s → r = inr s.
Proof. destruct r; simpl; congruence. Qed.

(** A run of [transactionToMap] that returns a row went through the four
    serializations and the two memo functions. *)
Lemma transactionToMap_Ret transaction sequence clock row clock' :
  transactionToMap transaction sequence clock = Ret (row, clock') →
  ∃ mt m,
    memoType transaction = Ret mt ∧ memo transaction = Ret m ∧
    serialization_error transaction = None ∧
    memo_type row = mt ∧ memo_ row = m ∧
    created_at row = UTC (Now clock) ∧ updated_at row = UTC (Now (S clock)) ∧
    clock' = S (S clock) ∧
    successful row =
      Z.eqb (xdr.Code (xdr.Result (xdr.Result_ (io.Result transaction))))
            TransactionResultCodeTxSuccess.
Proof.
  unfold transactionToMap, serialization_error.
  destruct (MarshalBase64_envelope _) as [?|e1]; [discriminate|].
  destruct (MarshalBase64_result _) as [?|e2]; [discriminate|].
  destruct (MarshalBase64_meta _) as [?|e3]; [discriminate|].
  destruct (MarshalBase64_changes _) as [?|e4]; [discriminate|].
  simpl.
  destruct (memoType transaction) as [mt| |]; simpl; try discriminate.
  destruct (memo transaction) as [m| |]; simpl; try discriminate.
  intros [= <- <-]. exists mt, m. simpl. repeat split; reflexivity.
Qed.

(** C1. For every ledger transaction the normalizer accepts, the row's
    [successful] field is the comparison of the decoded result's code with
    the success code: it is true if and only if the two are equal, whatever
    else the transaction, the sequence or the clock hold. *)
Theorem transactionToMap_successful transaction sequence clock row clock' :
  transactionToMap transaction sequence clock = Ret (row, clock') →
  successful row =
    Z.eqb (xdr.Code (xdr.Result (xdr.Result_ (io.Result transaction))))
          TransactionResultCodeTxSuccess ∧
  (successful row = true ↔
   xdr.Code (xdr.Result (xdr.Result_ (io.Result transaction))) =
     TransactionResultCodeTxSuccess).
Proof.
  intros Hrun.
  destruct (transactionToMap_Ret _ _ _ _ _ Hrun)
    as (mt & m & _ & _ & _ & _ & _ & _ & _ & _ & Hsucc).
  split; [exact Hsucc|].
  rewrite Hsucc. apply Z.eqb_eq.
Qed.

(** C8, as the code has it. A row's [created_at] is the reading of the
    clock when the row is built and [updated_at] is the next reading, taken
    by a second call; the two fields are identical exactly when the clock
    gives the same reading twice. *)
Theorem transactionToMap_stamps transaction sequence clock row clock' :
  transactionToMap transaction sequence clock = Ret (row, clock') →
  created_at row = UTC (Now clock) ∧
  updated_at row = UTC (Now (S clock)) ∧
  clock' = S (S clock) ∧
  (created_at row = updated_at row ↔ Now clock = Now (S clock)).
Proof.
  intros Hrun.
  destruct (transactionToMap_Ret _ _ _ _ _ Hrun)
    as (mt & m & _ & _ & _ & _ & _ & Hc & Hu & Hclock & _).
  rewrite Hc, Hu. unfold UTC. tauto.
Qed.

End normalizer.

(** ** Memo and time bounds *)
Section memo.
Context `{!Xdr, !Lib}.

Implicit Types (transaction : io.LedgerTransaction) (row : Row).

Lemma append_String c a b : String c a +:+ b = String c (a +:+ b).
Proof. reflexivity. Qed.

Lemma append_empty_r a : a +:+ "" = a.
Proof. induction a as [|c a IH]; [reflexivity|]. now rewrite append_String, IH. Qed.

Lemma Join_cons_empty a l : strings.Join (a :: l) "" = a +:+ strings.Join l "".
Proof.
  destruct l as [|b l]; [|reflexivity].
  cbn [strings.Join]. now rewrite append_empty_r.
Qed.

(** Splitting at the NUL bytes and gluing the pieces is deleting the NUL
    bytes. *)
Lemma Join_Split_NUL s : strings.Join (strings.Split s NUL) "" = without Ascii.zero s.
Proof.
  unfold strings.Split, NUL.
  induction s as [|c s IH]; [reflexivity|].
  cbn [strings.split_from String.prefix String.length Nat.pred without].
  destruct (ascii_dec Ascii.zero c) as [<-|Hne].
  - assert (String.prefix "" s = true) as -> by now destruct s.
    rewrite Ascii.eqb_refl, Join_cons_empty. exact IH.
  - assert (Ascii.eqb c Ascii.zero = false) as ->
      by (apply Ascii.eqb_neq; congruence).
    destruct (strings.split_from _ 0 s) as [|piece pieces].
    + cbn [strings.Join] in *. now rewrite <- IH.
    + rewrite Join_cons_empty in IH. rewrite Join_cons_empty, append_String.
      now rewrite IH.
Qed.


Lemma without_fixed c s : ¬ occurs c s → without c s = s.
Proof.
  induction s as [|a s IH]; simpl; [reflexivity|]. intros H'.
  destruct (Ascii.eqb a c) eqn:E.
  - apply Ascii.eqb_eq in E. tauto.
  - f_equal. apply IH. tauto.
Qed.




Lemma memoType_unknown transaction :
  ¬ known_memo_type (xdr.Type_ (xdr.Memo_ (xdr.Tx (io.Envelope transaction)))) →
  memoType transaction =
    Panic (invalid_memo_type (xdr.Type_ (xdr.Memo_ (xdr.Tx (io.Envelope transaction))))).
Proof.
  unfold known_memo_type, memoType. intros Hunknown.
  repeat match goal with
         | |- context [Z.eqb ?a ?b] => destruct (Z.eqb_spec a b); [tauto|]
         end.
  reflexivity.
Qed.

Lemma memo_unknown transaction :
  ¬ known_memo_type (xdr.Type_ (xdr.Memo_ (xdr.Tx (io.Envelope transaction)))) →
  memo transaction =
    Panic (invalid_memo_type (xdr.Type_ (xdr.Memo_ (xdr.Tx (io.Envelope transaction))))).
Proof.
  unfold known_memo_type, memo. intros Hunknown.
  repeat match goal with
         | |- context [Z.eqb ?a ?b] => destruct (Z.eqb_spec a b); [tauto|]
         end.
  reflexivity.
Qed.

Lemma memoType_known transaction :
  known_memo_type (xdr.Type_ (xdr.Memo_ (xdr.Tx (io.Envelope transaction)))) →
  ∃ name, memoType transaction = Ret name.
Proof.
  unfold known_memo_type, memoType. intros Hknown.
  repeat match goal with
         | |- context [Z.eqb ?a ?b] => destruct (Z.eqb_spec a b); [eauto|]
         end.
  tauto.
Qed.

Lemma bind_must_panic {A B} arm (v : option A) (f : A → B) msg t :
  (a ← must arm v; Ret (f a)) = Panic msg → msg ≠ invalid_memo_type t.
Proof.
  destruct v; simpl; [discriminate|]. intros [= <-]. discriminate.
Qed.

Lemma memo_known transaction msg :
  known_memo_type (xdr.Type_ (xdr.Memo_ (xdr.Tx (io.Envelope transaction)))) →
  memo transaction = Panic msg →
  msg ≠ invalid_memo_type (xdr.Type_ (xdr.Memo_ (xdr.Tx (io.Envelope transaction)))).
Proof.
  unfold known_memo_type, memo. intros Hknown.
  repeat match goal with
         | |- context [Z.eqb ?a ?b] =>
             destruct (Z.eqb_spec a b);
             [first [discriminate | apply bind_must_panic]|]
         end.
  tauto.
Qed.

(** C5, as the code has it. For a transaction whose memo type is none of
    the five known ones, [memoType] and [memo] panic with "invalid memo
    type", and [transactionToMap] never returns a row: it returns the error
    of the first serialization that fails, if one does, and panics with
    "invalid memo type" otherwise. For the five known types [memoType]
    returns a name and [memo] never panics with "invalid memo type". *)
Theorem unknown_memo_type_panics transaction :
  let t := xdr.Type_ (xdr.Memo_ (xdr.Tx (io.Envelope transaction))) in
  (¬ known_memo_type t →
   memoType transaction = Panic (invalid_memo_type t) ∧
   memo transaction = Panic (invalid_memo_type t) ∧
   ∀ sequence clock,
     transactionToMap transaction sequence clock =
       match serialization_error transaction with
       | Some e => Fail (External e)
       | None => Panic (invalid_memo_type t)
       end) ∧
  (known_memo_type t →
   (∃ name, memoType transaction = Ret name) ∧
   ∀ msg, memo transaction = Panic msg → msg ≠ invalid_memo_type t).
Proof.
  intros t. split.
  - intros Hunknown.
    pose proof (memoType_unknown _ Hunknown) as HmemoType.
    split; [exact HmemoType|]. split; [now apply memo_unknown|].
    intros sequence clock. unfold transactionToMap, serialization_error.
    destruct (MarshalBase64_envelope _); [reflexivity|].
    destruct (MarshalBase64_result _); [reflexivity|].
    destruct (MarshalBase64_meta _); [reflexivity|].
    destruct (MarshalBase64_changes _); [reflexivity|].
    simpl. now rewrite HmemoType.
  - intros Hknown. split; [now apply memoType_known|].
    intros msg. now apply memo_known.
Qed.

(** C6. [formatTimeBounds]: without a time-bounds block the stored interval
    is absent (NULL, so both of its ends are); with a declared max time of
    0 the interval runs from the declared min time to a NULL upper bound;
    with a declared max time above the largest signed 64-bit value the
    upper bound is that largest value. *)
Theorem formatTimeBounds_cases transaction :
  (xdr.TimeBounds_ (xdr.Tx (io.Envelope transaction)) = None →
   formatTimeBounds transaction = None) ∧
  (∀ bounds,
     xdr.TimeBounds_ (xdr.Tx (io.Envelope transaction)) = Some bounds →
     xdr.MaxTime bounds = 0 →
     formatTimeBounds transaction =
       Some (sq.Expr "int8range(?,?)" [sq.Int (xdr.MinTime bounds); sq.Nil])) ∧
  (∀ bounds,
     xdr.TimeBounds_ (xdr.Tx (io.Envelope transaction)) = Some bounds →
     MaxInt64 < xdr.MaxTime bounds →
     formatTimeBounds transaction =
       Some (sq.Expr "int8range(?,?)" [sq.Int (xdr.MinTime bounds); sq.Int MaxInt64])).
Proof.
  unfold formatTimeBounds. repeat split.
  - now intros ->.
  - intros bounds -> ->. reflexivity.
  - intros bounds -> Hmax.
    destruct (Z.eqb_spec (xdr.MaxTime bounds) 0) as [E|_].
    + unfold MaxInt64 in Hmax. lia.
    + apply Z.ltb_lt in Hmax. now rewrite Hmax.
Qed.

End memo.

(** ** The transaction query *)
Section query.
Context `{!Xdr, !Lib, !Session}.

Implicit Types (q : TransactionsQ) (t : Transaction) (cs : list Call).

Lemma includeFailed_call q c :
  includeFailed (call q c) = includeFailed q || is_IncludeFailed c.
Proof.
  destruct c as [aid|seq| |page]; simpl.
  - unfold ForAccount. destruct (AccountByAddress aid); simpl; now rewrite orb_false_r.
  - unfold ForLedger. destruct (LedgerBySequence seq); simpl; now rewrite orb_false_r.
  - now rewrite orb_true_r.
  - unfold Page. destruct (Err q); [now rewrite orb_false_r|].
    destruct (ApplyTo page (sql q) "ht.id"). simpl. now rewrite orb_false_r.
Qed.

Lemma includeFailed_fold cs q :
  includeFailed (fold_left call cs q) = includeFailed q || existsb is_IncludeFailed cs.
Proof.
  revert q. induction cs as [|c cs IH]; intros q; simpl.
  - now rewrite orb_false_r.
  - now rewrite IH, includeFailed_call, orb_assoc.
Qed.

(** A chain includes failed transactions exactly when [IncludeFailed] is
    one of its calls. *)
Lemma includeFailed_chain cs :
  includeFailed (chain cs) = existsb is_IncludeFailed cs.
Proof. unfold chain. now rewrite includeFailed_fold. Qed.

(** The loop returns no error exactly when no row does. *)
Lemma check_transactions_None include_failed ts :
  check_transactions include_failed ts = None ↔
  Forall (fun t => check_transaction include_failed t = None) ts.
Proof.
  induction ts as [|t ts IH]; simpl.
  - split; [constructor|reflexivity].
  - destruct (check_transaction include_failed t) eqn:E.
    + split; [discriminate|]. intros Hall. inversion Hall; congruence.
    + rewrite IH. split; [now constructor|]. intros Hall. now inversion Hall.
Qed.

(** The loop returns the error of the first row that has one. *)
Lemma check_transactions_first include_failed good t rest e :
  Forall (fun t => check_transaction include_failed t = None) good →
  check_transaction include_failed t = Some e →
  check_transactions include_failed (good ++ t :: rest)%list = Some e.
Proof.
  induction 1 as [|g good Hg _ IH]; simpl; intros Ht.
  - now rewrite Ht.
  - rewrite Hg. now apply IH.
Qed.

(** With failed transactions left out, a row passes only if its flag reads
    successful and its result decodes to a success. *)
Lemma check_transaction_default_None t :
  check_transaction false t = None →
  IsSuccessful t = true ∧
  ∃ resultXDR, SafeUnmarshalBase64 (TxResult t) = inr resultXDR ∧
               xdr.Code (xdr.Result resultXDR) = TransactionResultCodeTxSuccess.
Proof.
  unfold check_transaction.
  destruct (SafeUnmarshalBase64 (TxResult t)) as [e|resultXDR]; [discriminate|].
  destruct (IsSuccessful t); simpl; [|discriminate].
  destruct (Z.eqb_spec (xdr.Code (xdr.Result resultXDR)) TransactionResultCodeTxSuccess);
    simpl; [|discriminate].
  intros _. eauto.
Qed.

Lemma IsSuccessful_true t :
  IsSuccessful t = true ↔ Successful t = Some true ∨ Successful t = None.
Proof.
  unfold IsSuccessful. destruct (Successful t) as [[]|]; intuition congruence.
Qed.

(** The query [Select] runs and leaves behind. *)
Lemma Select_sql q dest :
  Err q = None →
  sql (Select q dest).1.1 =
    if negb (includeFailed q)
    then sq.Where (sql q) "(ht.successful = true OR ht.successful IS NULL)" []
    else sql q.
Proof.
  intros HErr. unfold Select. rewrite HErr.
  destruct (parent_Select dest _) as [dest1 [e|]]; [reflexivity|].
  now destruct dest1.
Qed.

Lemma Select_dest q dest :
  Err q = None →
  (Select q dest).1.2 = (parent_Select dest (sql (Select q dest).1.1)).1.
Proof.
  intros HErr. rewrite (Select_sql q dest HErr). unfold Select. rewrite HErr.
  destruct (parent_Select dest _) as [dest1 [e|]]; [reflexivity|].
  now destruct dest1.
Qed.

Lemma Select_loop q dest ts :
  Err q = None → (Select q dest).2 = None →
  (Select q dest).1.2 = DestTransactions ts →
  check_transactions (includeFailed q) ts = None.
Proof.
  intros HErr. unfold Select. rewrite HErr.
  destruct (parent_Select dest _) as [dest1 [e|]]; [discriminate|].
  destruct dest1; [|discriminate]. cbn [fst snd]. now intros ? [= <-].
Qed.

(** C2, as the code has it. For a query chained on [Transactions()] that
    carries no error: when [IncludeFailed] was not called, [Select] adds
    exactly one part to the WHERE clause, the success predicate, after all
    the parts the chain added, runs that query, and when it returns no
    error every row it loaded has a flag that is true or unset; when
    [IncludeFailed] was called, [Select] runs the query as it is. A query
    that carries an error is left as it is, and [Select] returns the
    error. *)
Theorem Select_success_filter cs dest :
  let q := chain cs in
  let q' := (Select q dest).1.1 in
  let dest' := (Select q dest).1.2 in
  let err := (Select q dest).2 in
  (∀ e, Err q = Some e → Select q dest = (q, dest, Some e)) ∧
  (Err q = None →
   (existsb is_IncludeFailed cs = false →
    sql q' = sq.Where (sql q) "(ht.successful = true OR ht.successful IS NULL)" [] ∧
    sq.WhereParts (sql q') = (sq.WhereParts (sql q) ++ [successful_only])%list ∧
    last (sq.WhereParts (sql q')) = Some successful_only ∧
    dest' = (parent_Select dest (sql q')).1 ∧
    (err = None →
     ∀ ts, dest' = DestTransactions ts →
           Forall (fun t => Successful t = Some true ∨ Successful t = None) ts)) ∧
   (existsb is_IncludeFailed cs = true →
    sql q' = sql q ∧ dest' = (parent_Select dest (sql q)).1)).
Proof.
  intros q q' dest' err. subst q' dest' err.
  pose proof (includeFailed_chain cs) as Hflag. fold q in Hflag.
  split.
  - intros e He. unfold Select. now rewrite He.
  - intros HErr.
    pose proof (Select_sql q dest HErr) as Hsql.
    pose proof (Select_dest q dest HErr) as Hdest.
    rewrite Hflag in Hsql. split; intros Hcs; rewrite Hcs in Hsql; cbn [negb] in Hsql.
    + rewrite Hsql in *. cbn [sq.Where sq.WhereParts].
      split; [reflexivity|]. split; [reflexivity|].
      split; [apply last_snoc|]. split; [exact Hdest|].
      intros Hnone ts Hts.
      pose proof (Select_loop q dest ts HErr Hnone Hts) as Hloop.
      rewrite Hflag, Hcs in Hloop. apply check_transactions_None in Hloop.
      eapply Forall_impl; [exact Hloop|]. intros t Ht. simpl in Ht.
      apply IsSuccessful_true. now apply check_transaction_default_None.
    + rewrite Hsql in Hdest. split; assumption.
Qed.

(** C3, as the code has it. [Select] decodes the result payload of each row
    it loaded, in order, until one yields an error, and returns that error.
    A row whose payload does not decode yields the decoder's error. A row
    whose payload decodes yields a data-corruption error in exactly the
    three cases of section 4.4 (the flag read through [IsSuccessful]), and
    no error otherwise. *)
Theorem Select_corruption include_failed t :
  (∀ e, SafeUnmarshalBase64 (TxResult t) = inl e →
        check_transaction include_failed t = Some (External e)) ∧
  (∀ resultXDR,
     SafeUnmarshalBase64 (TxResult t) = inr resultXDR →
     let success :=
       Z.eqb (xdr.Code (xdr.Result resultXDR)) TransactionResultCodeTxSuccess in
     (reported include_failed (IsSuccessful t) success →
      ∃ e, check_transaction include_failed t = Some e ∧ DataCorruption e) ∧
     (¬ reported include_failed (IsSuccessful t) success →
      check_transaction include_failed t = None)) ∧
  (∀ q dest ts,
     Err q = None → includeFailed q = include_failed →
     parent_Select dest
       (if negb (includeFailed q)
        then sq.Where (sql q) "(ht.successful = true OR ht.successful IS NULL)" []
        else sql q) = (DestTransactions ts, None) →
     (Select q dest).2 = check_transactions include_failed ts) ∧
  (∀ good rest e,
     Forall (fun t => check_transaction include_failed t = None) good →
     check_transaction include_failed t = Some e →
     check_transactions include_failed (good ++ t :: rest)%list = Some e).
Proof.
  split; [|split; [|split]].
  - intros e Hdecode. unfold check_transaction. now rewrite Hdecode.
  - intros resultXDR Hdecode.
    unfold check_transaction, reported, DataCorruption. rewrite Hdecode.
    destruct include_failed, (IsSuccessful t),
      (xdr.Code (xdr.Result resultXDR) =? TransactionResultCodeTxSuccess);
      cbn; split; intros Hcase;
      first [ reflexivity
            | exfalso; intuition congruence
            | eexists; split; [reflexivity|]; eexists; reflexivity ].
  - intros q dest ts HErr <- Hrun. unfold Select. rewrite HErr, Hrun. reflexivity.
  - intros good rest e. apply check_transactions_first.
Qed.

(** C10, as the code has it. A row whose flag is unset counts as
    successful. If its result decodes to something other than a success,
    [Select] reports it: with the "successful=true" error when failed rows
    are included, and with the "include_failed=false" error, raised first,
    when they are not. If its result decodes to a success it passes every
    check. *)
Theorem unset_flag_is_successful t :
  Successful t = None →
  IsSuccessful t = true ∧
  ∀ resultXDR,
    SafeUnmarshalBase64 (TxResult t) = inr resultXDR →
    (xdr.Code (xdr.Result resultXDR) ≠ TransactionResultCodeTxSuccess →
     check_transaction true t =
       Some (Errorf ("Corrupted data! `successful=true` but returned transaction is not success: "
                     +:+ TransactionHash t +:+ " " +:+ TxResult t)) ∧
     check_transaction false t =
       Some (Errorf ("Corrupted data! `include_failed=false` but returned transaction is failed: "
                     +:+ TransactionHash t +:+ " " +:+ TxResult t))) ∧
    (xdr.Code (xdr.Result resultXDR) = TransactionResultCodeTxSuccess →
     ∀ include_failed, check_transaction include_failed t = None).
Proof.
  intros Hunset.
  assert (IsSuccessful t = true) as Hflag by (unfold IsSuccessful; now rewrite Hunset).
  split; [exact Hflag|].
  intros resultXDR Hdecode. unfold check_transaction. rewrite Hdecode, Hflag.
  split.
  - intros Hcode. apply Z.eqb_neq in Hcode. rewrite Hcode. now cbn.
  - intros Hcode. apply Z.eqb_eq in Hcode. rewrite Hcode. now intros [].
Qed.

(** C7, as the code has it. When the ledger [seq] is found, [ForLedger]
    adds one part to the WHERE clause, [ht.id >= ? AND ht.id < ?], bound to
    the keys of (seq, 0, 0) and of (seq + 1, 0, 0), the sum taken in 32
    bits; when the lookup fails it records the error and leaves the query
    as it is. For a key function that grows with the lexicographic order of
    the triples and a sequence below the largest, that half-open range holds
    the key of every transaction and operation of the ledger. *)
Theorem ForLedger_range q seq :
  (LedgerBySequence seq = None →
   ForLedger q seq =
     {| Err := None;
        sql := sq.Where (sql q) "ht.id >= ? AND ht.id < ?"
                 [sq.Int (ToInt64 (toid.New seq 0 0));
                  sq.Int (ToInt64 (toid.New (int32 (seq + 1)) 0 0))];
        includeFailed := includeFailed q |}) ∧
  (∀ e, LedgerBySequence seq = Some e →
        ForLedger q seq =
          {| Err := Some (External e); sql := sql q; includeFailed := includeFailed q |}) ∧
  (∀ valid : toid.ID → Prop,
     (∀ a b, valid a → valid b → lex_lt a b → ToInt64 a < ToInt64 b) →
     0 ≤ seq < 2 ^ 31 - 1 →
     valid (toid.New seq 0 0) → valid (toid.New (seq + 1) 0 0) →
     ∀ tx op, 0 ≤ tx → 0 ≤ op → valid (toid.New seq tx op) →
              ToInt64 (toid.New seq 0 0) ≤ ToInt64 (toid.New seq tx op) ∧
              ToInt64 (toid.New seq tx op) < ToInt64 (toid.New (int32 (seq + 1)) 0 0)).
Proof.
  split; [|split].
  - intros Hfound. unfold ForLedger. now rewrite Hfound.
  - intros e Hmissing. unfold ForLedger. now rewrite Hmissing.
  - intros valid Hlex Hseq Hstart Hend tx op Htx Hop Hkey.
    assert (int32 (seq + 1) = seq + 1) as ->.
    { unfold int32. rewrite Z.mod_small; lia. }
    split.
    + destruct (Z.eq_dec tx 0) as [->|]; [destruct (Z.eq_dec op 0) as [->|]|].
      * lia.
      * apply Z.lt_le_incl, Hlex; try assumption.
        unfold lex_lt, toid.New; simpl. right. split; [reflexivity|]. right. lia.
      * apply Z.lt_le_incl, Hlex; try assumption.
        unfold lex_lt, toid.New; simpl. right. split; [reflexivity|]. left. lia.
    + apply Hlex; try assumption. unfold lex_lt, toid.New; simpl. left. lia.
Qed.

End query.

(** ** The consistency check *)
Section shadow.
Import ShadowConsistencyChecker.
Local Open Scope list_scope.
Context `{!Lib}.
Variable stamps : bool.

Implicit Types (r : TransactionRow) (l : list TransactionRow) (store : Store).

Lemma same_row_true r1 r2 :
  same_row stamps r1 r2 = true ↔ columns stamps r1 = columns stamps r2.
Proof. unfold same_row. apply bool_decide_eq_true. Qed.

(** Two rows that differ in a column the check compares are not the same
    row. *)
Lemma differ_at_columns c r r' :
  differ_at c r r' → columns stamps r ≠ columns stamps r'.
Proof.
  unfold columns. intros Hdiffer Hsame.
  destruct c; simpl in Hdiffer; apply Hdiffer; congruence.
Qed.

Lemma columns_rowId r r' : columns stamps r = columns stamps r' → rowId r = rowId r'.
Proof. unfold columns. congruence. Qed.

Lemma rows_agree_Forall2 l1 l2 :
  rows_agree stamps l1 l2 = true ↔
  Forall2 (fun r1 r2 => columns stamps r1 = columns stamps r2) l1 l2.
Proof.
  revert l2. induction l1 as [|r1 l1 IH]; intros [|r2 l2]; simpl.
  - split; [constructor|reflexivity].
  - split; [discriminate|inversion 1].
  - split; [discriminate|inversion 1].
  - rewrite andb_true_iff, same_row_true, IH. split.
    + intros [? ?]. now constructor.
    + inversion 1; subst. now split.
Qed.

(** The verdict is valid exactly when the two fetched lists agree row by
    row. *)
Lemma check_true store seq :
  (CheckExpTransactions stamps store seq).1 = true ↔
  Forall2 (fun r1 r2 => columns stamps r1 = columns stamps r2)
          (fetch seq (history_transactions store))
          (fetch seq (exp_history_transactions store)).
Proof.
  unfold CheckExpTransactions.
  destruct (Nat.eqb_spec (length (fetch seq (history_transactions store)))
                         (length (fetch seq (exp_history_transactions store))))
    as [Hlen|Hlen]; cbn [negb fst].
  - apply rows_agree_Forall2.
  - split; [discriminate|]. intros Hall. now apply Forall2_length in Hall.
Qed.

Lemma fetch_Permutation seq l : fetch seq l ≡ₚ filter (in_ledger seq) l.
Proof. apply merge_sort_Permutation. Qed.

Lemma elem_of_fetch seq l r : r ∈ fetch seq l ↔ in_ledger seq r ∧ r ∈ l.
Proof. now rewrite fetch_Permutation, list_elem_of_filter. Qed.

(** In a list without two rows of one key, a key names a row. *)
Lemma NoDup_rowId l r1 r2 :
  NoDup (rowId <$> l) → r1 ∈ l → r2 ∈ l → rowId r1 = rowId r2 → r1 = r2.
Proof.
  induction l as [|r l IH]; [now inversion 2|].
  rewrite fmap_cons, NoDup_cons, !elem_of_cons.
  intros [Hfresh Hrest] [->|H1] [->|H2] Hid; try reflexivity.
  - exfalso. apply Hfresh. rewrite Hid. now apply list_elem_of_fmap_2.
  - exfalso. apply Hfresh. rewrite <- Hid. now apply list_elem_of_fmap_2.
  - now apply IH.
Qed.

(** Ordered by key, two tables with the same rows of the ledger, each key
    once, are fetched as the same list, whatever the order they are stored
    in. *)
Lemma fetch_unique seq l1 l2 :
  NoDup (rowId <$> filter (in_ledger seq) l1) →
  filter (in_ledger seq) l1 ≡ₚ filter (in_ledger seq) l2 →
  fetch seq l1 = fetch seq l2.
Proof.
  intros Hkeys Hsame.
  apply (Sorted_unique_strong by_id); try apply Sorted_merge_sort; try apply _.
  - intros r1 r2 H1 H2 Hle Hge.
    apply (NoDup_rowId (filter (in_ledger seq) l1)); [assumption| | |].
    + now rewrite <- fetch_Permutation.
    + now rewrite Hsame, <- fetch_Permutation.
    + unfold by_id in *. lia.
  - now rewrite !fetch_Permutation.
Qed.

Lemma Forall2_same l :
  Forall2 (fun r1 r2 => columns stamps r1 = columns stamps r2) l l.
Proof. induction l; now constructor. Qed.

Lemma Forall2_elem_of_r l1 l2 r2 :
  Forall2 (fun r1 r2 => columns stamps r1 = columns stamps r2) l1 l2 →
  r2 ∈ l2 → ∃ r1, r1 ∈ l1 ∧ columns stamps r1 = columns stamps r2.
Proof.
  induction 1 as [|r1 r2' l1 l2 Hhead _ IH]; [now inversion 1|].
  rewrite elem_of_cons. intros [->|Hin].
  - exists r1. split; [now left|assumption].
  - destruct (IH Hin) as (r & ? & ?). exists r. split; [now right|assumption].
Qed.

(** Identical row sets: valid. *)
Lemma check_identical store seq :
  NoDup (rowId <$> filter (in_ledger seq) (history_transactions store)) →
  filter (in_ledger seq) (history_transactions store)
    ≡ₚ filter (in_ledger seq) (exp_history_transactions store) →
  (CheckExpTransactions stamps store seq).1 = true.
Proof.
  intros Hkeys Hsame. apply check_true.
  rewrite (fetch_unique seq _ _ Hkeys Hsame). apply Forall2_same.
Qed.

(** Row sets of different sizes: invalid. *)
Lemma check_sizes store seq :
  length (filter (in_ledger seq) (history_transactions store)) ≠
  length (filter (in_ledger seq) (exp_history_transactions store)) →
  (CheckExpTransactions stamps store seq).1 = false.
Proof.
  intros Hsizes. apply not_true_is_false. rewrite check_true. intros Hall.
  apply Forall2_length in Hall. now rewrite !fetch_Permutation in Hall.
Qed.

(** One row of the ledger changed in one compared column: invalid. *)
Lemma check_mutation shadow before after r r' c seq :
  NoDup (rowId <$> filter (in_ledger seq) (before ++ r :: after)) →
  filter (in_ledger seq) (before ++ r :: after) ≡ₚ filter (in_ledger seq) shadow →
  in_ledger seq r →
  differ_at c r r' →
  (CheckExpTransactions stamps
     {| history_transactions := before ++ r' :: after;
        exp_history_transactions := shadow |} seq).1 = false.
Proof.
  intros Hkeys Hsame Hr Hdiffer. apply not_true_is_false. rewrite check_true.
  cbn [history_transactions exp_history_transactions]. intros Hall.
  assert (r ∈ fetch seq shadow) as Hshadow.
  { rewrite fetch_Permutation, <- Hsame, list_elem_of_filter, elem_of_app, elem_of_cons.
    tauto. }
  destruct (Forall2_elem_of_r _ _ _ Hall Hshadow) as (x & Hx & Hcolumns).
  apply elem_of_fetch in Hx as [Hledger Hx].
  assert (x ≠ r') as Hfresh.
  { intros ->. now apply (differ_at_columns c r r'). }
  assert (x ∈ before ++ r :: after ∧ x ≠ r) as [Hold Hother].
  { rewrite elem_of_app, elem_of_cons in Hx. rewrite elem_of_app, elem_of_cons.
    destruct Hx as [Hx|[Hx|Hx]]; [|contradiction|].
    - split; [tauto|]. intros ->.
      rewrite filter_app, filter_cons_True, fmap_app, fmap_cons in Hkeys by assumption.
      apply NoDup_app in Hkeys as (_ & Hkeys & _).
      apply (Hkeys (rowId r)); [|now left].
      apply list_elem_of_fmap_2, list_elem_of_filter. tauto.
    - split; [tauto|]. intros ->.
      rewrite filter_app, filter_cons_True, fmap_app, fmap_cons in Hkeys by assumption.
      apply NoDup_app in Hkeys as (_ & _ & Hkeys).
      apply NoDup_cons in Hkeys as [Hkeys _]. apply Hkeys.
      apply list_elem_of_fmap_2, list_elem_of_filter. tauto. }
  apply Hother.
  apply (NoDup_rowId (filter (in_ledger seq) (before ++ r :: after))); [assumption| | |].
  - apply list_elem_of_filter. tauto.
  - apply list_elem_of_filter. rewrite elem_of_app, elem_of_cons. tauto.
  - now apply columns_rowId.
Qed.

(** C9. Against the check of section 4.5: for a ledger whose rows in the
    legacy table have one key each, the verdict is valid when the legacy
    and the shadow table hold the same rows of the ledger, in whatever
    order they are stored, and so when neither holds any; it is invalid
    when the two hold different numbers of rows of the ledger, and when one
    row of the ledger in the legacy table is changed in one column (id,
    hash, account, account sequence, either fee, operation count, any of
    the four blobs, the signatures or their order, either time bound, memo
    type, memo, success flag) while the shadow table holds the rows as they
    were; it is valid again once the changed row is deleted and the
    original written back. The check leaves the store as it is and gives
    the same verdict when run again. *)
Theorem CheckExpTransactions_verdict store seq :
  (NoDup (rowId <$> filter (in_ledger seq) (history_transactions store)) →
   filter (in_ledger seq) (history_transactions store)
     ≡ₚ filter (in_ledger seq) (exp_history_transactions store) →
   (CheckExpTransactions stamps store seq).1 = true) ∧
  (filter (in_ledger seq) (history_transactions store) = [] →
   filter (in_ledger seq) (exp_history_transactions store) = [] →
   (CheckExpTransactions stamps store seq).1 = true) ∧
  (length (filter (in_ledger seq) (history_transactions store)) ≠
   length (filter (in_ledger seq) (exp_history_transactions store)) →
   (CheckExpTransactions stamps store seq).1 = false) ∧
  (∀ before after r r' c,
     history_transactions store = (before ++ r :: after)%list →
     NoDup (rowId <$> filter (in_ledger seq) (history_transactions store)) →
     filter (in_ledger seq) (history_transactions store)
       ≡ₚ filter (in_ledger seq) (exp_history_transactions store) →
     in_ledger seq r →
     differ_at c r r' →
     (CheckExpTransactions stamps
        {| history_transactions := before ++ r' :: after;
           exp_history_transactions := exp_history_transactions store |} seq).1 = false ∧
     (CheckExpTransactions stamps
        {| history_transactions := (before ++ after) ++ [r];
           exp_history_transactions := exp_history_transactions store |} seq).1 = true) ∧
  (CheckExpTransactions stamps store seq).2 = store ∧
  CheckExpTransactions stamps (CheckExpTransactions stamps store seq).2 seq =
    CheckExpTransactions stamps store seq.
Proof.
  split; [apply check_identical|].
  split.
  { intros Hlegacy Hshadow. apply check_identical; rewrite Hlegacy; [constructor|].
    now rewrite Hshadow. }
  split; [apply check_sizes|].
  assert ((CheckExpTransactions stamps store seq).2 = store) as Hstore.
  { unfold CheckExpTransactions. now destruct (negb _). }
  split; [|split; [exact Hstore|now rewrite Hstore]].
  intros before after r r' c Hlegacy Hkeys Hsame Hr Hdiffer.
  rewrite Hlegacy in Hkeys, Hsame. split.
  - now apply (check_mutation _ _ _ r r' c).
  - assert ((before ++ after) ++ [r] ≡ₚ before ++ r :: after) as Hback.
    { rewrite <- (assoc_L (++)). apply Permutation_app_head.
      symmetry. apply Permutation_cons_append. }
    apply check_identical; cbn [history_transactions exp_history_transactions].
    + now rewrite Hback.
    + now rewrite Hback.
Qed.

End shadow.

(** * Worked examples *)
Section examples.
#[local] Existing Instances run.wire run.lib run.db.

(** C1 at a transaction that succeeded: its row is marked successful. *)
Lemma transactionToMap_successful_witness :
  ∃ row,
    transactionToMap (run.transaction_with (run.memo_of 0 None) None 0) 123 0
      = Ret (row, 2%nat) ∧
    successful row = true.
Proof.
  eexists. split; [vm_compute; reflexivity|].
  refine (proj2 (proj2 (transactionToMap_successful
                          (run.transaction_with (run.memo_of 0 None) None 0)
                          123 0%nat _ 2%nat _)) _);
    vm_compute; reflexivity.
Defined.

(** C8 refuted: with a clock that moves between two readings, the two stamps
    of a row differ. *)
Lemma stamps_differ :
  ∃ row,
    transactionToMap (run.transaction_with (run.memo_of 0 None) None 0) 123 0
      = Ret (row, 2%nat) ∧
    created_at row ≠ updated_at row.
Proof.
  eexists. split; [vm_compute; reflexivity|]. vm_compute. discriminate.
Qed.

(** C8 as the code has it, at the same transaction: the stamps are two
    successive readings of the clock. *)
Lemma transactionToMap_stamps_witness :
  ∃ row,
    transactionToMap (run.transaction_with (run.memo_of 0 None) None 0) 123 0
      = Ret (row, 2%nat) ∧
    created_at row = 1575158400000000000 ∧
    updated_at row = 1575158400000001000.
Proof.
  eexists. split; [vm_compute; reflexivity|].
  edestruct (transactionToMap_stamps
               (run.transaction_with (run.memo_of 0 None) None 0) 123 0%nat)
    as (Hcreated & Hupdated & _); [vm_compute; reflexivity|].
  split; [exact Hcreated|exact Hupdated].
Defined.



(** C5 refuted: a transaction with a memo type the protocol does not know,
    which the codec refuses to serialize, comes back as an ordinary error. *)
Lemma unknown_memo_type_error :
  ¬ known_memo_type (H := run.strict_wire) 7 ∧
  transactionToMap (H := run.strict_wire) (run.transaction_with (run.memo_of 7 None) None 0) 123 0
    = Fail (External "xdr: invalid union switch").
Proof.
  split; [|reflexivity].
  unfold known_memo_type. vm_compute. intuition discriminate.
Qed.

(** C5 as the code has it, at a transaction of memo type 7 that serializes. *)
Lemma unknown_memo_type_panics_witness :
  transactionToMap (run.transaction_with (run.memo_of 7 None) None 0) 123 0
    = Panic "invalid memo type: 7".
Proof.
  destruct (unknown_memo_type_panics (run.transaction_with (run.memo_of 7 None) None 0))
    as [Hunknown _].
  destruct Hunknown as (_ & _ & Hrow).
  - unfold known_memo_type. vm_compute. intuition discriminate.
  - exact (Hrow 123 0%nat).
Defined.

(** C6 at three transactions: no bounds, no upper bound, an upper bound
    beyond the signed range. *)
Lemma formatTimeBounds_cases_witness :
  formatTimeBounds (run.transaction_with (run.memo_of 0 None) None 0) = None ∧
  formatTimeBounds
    (run.transaction_with (run.memo_of 0 None)
       (Some {| xdr.MinTime := 1575001440; xdr.MaxTime := 0 |}) 0)
    = Some (sq.Expr "int8range(?,?)" [sq.Int 1575001440; sq.Nil]) ∧
  formatTimeBounds
    (run.transaction_with (run.memo_of 0 None)
       (Some {| xdr.MinTime := 1575001440; xdr.MaxTime := 2 ^ 64 - 1 |}) 0)
    = Some (sq.Expr "int8range(?,?)" [sq.Int 1575001440; sq.Int (2 ^ 63 - 1)]).
Proof.
  split; [|split].
  - apply (proj1 (formatTimeBounds_cases _)). reflexivity.
  - apply (proj1 (proj2 (formatTimeBounds_cases
                           (run.transaction_with (run.memo_of 0 None)
                              (Some {| xdr.MinTime := 1575001440; xdr.MaxTime := 0 |}) 0)))
                        {| xdr.MinTime := 1575001440; xdr.MaxTime := 0 |});
      reflexivity.
  - apply (proj2 (proj2 (formatTimeBounds_cases
                           (run.transaction_with (run.memo_of 0 None)
                              (Some {| xdr.MinTime := 1575001440; xdr.MaxTime := 2 ^ 64 - 1 |}) 0)))
                        {| xdr.MinTime := 1575001440; xdr.MaxTime := 2 ^ 64 - 1 |});
      [reflexivity|]. unfold MaxInt64. simpl. lia.
Defined.

(** C3 at the failed row of the table, read without failed rows: it is
    reported as corrupted data. *)
Lemma Select_corruption_witness :
  ∃ e,
    check_transaction false
      {| ID := 1; TransactionHash := run.hash_b;
         TxResult := run.failed_result; Successful := Some false |} = Some e ∧
    DataCorruption e.
Proof.
  refine (proj1 (proj1 (proj2 (Select_corruption false
                  {| ID := 1; TransactionHash := run.hash_b;
                     TxResult := run.failed_result; Successful := Some false |}))
                  {| xdr.FeeCharged := 100; xdr.Result := {| xdr.Code := -5 |} |} eq_refl) _).
  left. split; [reflexivity|]. left. reflexivity.
Defined.

(** C3 refuted: a row whose payload does not decode has no decoded result for
    any of the three cases to hold of, yet [Select] returns an error for it,
    and not a data-corruption one. *)
Lemma undecodable_row_error :
  SafeUnmarshalBase64 (TxResult run.unreadable) = inl "illegal base64 data" ∧
  check_transaction true run.unreadable = Some (External "illegal base64 data") ∧
  (Select (H1 := run.unreadable_db) (IncludeFailed Transactions) (DestTransactions [])).2
    = Some (External "illegal base64 data") ∧
  ¬ DataCorruption (External "illegal base64 data").
Proof.
  split; [reflexivity|]. split; [reflexivity|]. split; [reflexivity|].
  intros [detail Hdetail]. discriminate.
Qed.

(** C10 as the code has it, at a row with an unset flag and a failed
    result. *)
Lemma unset_flag_is_successful_witness :
  IsSuccessful run.unset_failed = true ∧
  check_transaction true run.unset_failed =
    Some (Errorf ("Corrupted data! `successful=true` but returned transaction is not success: "
                  +:+ run.hash_b +:+ " " +:+ run.failed_result)) ∧
  check_transaction false run.unset_failed =
    Some (Errorf ("Corrupted data! `include_failed=false` but returned transaction is failed: "
                  +:+ run.hash_b +:+ " " +:+ run.failed_result)).
Proof.
  destruct (unset_flag_is_successful run.unset_failed eq_refl) as [Hflag Hrow].
  destruct (Hrow {| xdr.FeeCharged := 100; xdr.Result := {| xdr.Code := -5 |} |} eq_refl)
    as [Hfailed _].
  split; [exact Hflag|]. apply Hfailed. vm_compute. discriminate.
Defined.

(** C10 refuted: read without failed rows, a row with an unset flag and a
    failed result is reported with the "include_failed=false" error, not with
    the "successful=true" one. *)
Lemma unset_flag_default_error :
  Successful run.unset_failed = None ∧
  (∃ resultXDR,
     SafeUnmarshalBase64 (TxResult run.unset_failed) = inr resultXDR ∧
     xdr.Code (xdr.Result resultXDR) ≠ TransactionResultCodeTxSuccess) ∧
  check_transaction false run.unset_failed ≠
    Some (Errorf ("Corrupted data! `successful=true` but returned transaction is not success: "
                  +:+ TransactionHash run.unset_failed +:+ " " +:+ TxResult run.unset_failed)).
Proof.
  split; [reflexivity|]. split.
  - eexists. split; [reflexivity|]. vm_compute. discriminate.
  - vm_compute. discriminate.
Qed.

(** The key of the examples grows with the lexicographic order of the
    triples it is meant for. *)
Lemma pack_lex a b :
  run.packable a → run.packable b → lex_lt a b → run.pack a < run.pack b.
Proof.
  unfold run.packable, lex_lt, run.pack.
  destruct a as [la ta oa], b as [lb tb ob]; simpl.
  change (2 ^ 32) with 4294967296. change (2 ^ 31) with 2147483648.
  change (2 ^ 20) with 1048576. change (2 ^ 12) with 4096.
  lia.
Qed.

(** C7 as the code has it, at ledger 3 of the example session. *)
Lemma ForLedger_range_witness :
  sq.WhereParts (sql (ForLedger Transactions 3)) =
    [sq.Expr "ht.id >= ? AND ht.id < ?" [sq.Int 12884901888; sq.Int 17179869184]] ∧
  12884901888 ≤ run.pack (toid.New 3 2 0) ∧
  run.pack (toid.New 3 2 0) < 17179869184.
Proof.
  destruct (ForLedger_range Transactions 3) as (Hfound & _ & Hcovers).
  split.
  - rewrite (Hfound eq_refl). reflexivity.
  - apply (Hcovers run.packable pack_lex); unfold run.packable; simpl; lia.
Defined.

(** C7 refuted: for a sequence that names no ledger, [ForLedger] adds no
    range to the query. *)
Lemma ForLedger_unknown_ledger :
  sq.WhereParts (sql (ForLedger Transactions 5000)) = [] ∧
  Err (ForLedger Transactions 5000) = Some (External "sql: no rows in result set").
Proof. split; reflexivity. Qed.

(** C2 as the code has it, at a query for a known account and ledger 3. *)
Lemma Select_success_filter_witness :
  let q := chain [CallForAccount "GA5WBPYA5Y4WAEHXWR2UKO2UO4BUGHUQ74EUPKON2QHV4WRHOIRNKKH2";
                  CallForLedger 3] in
  sq.WhereParts (sql (Select q (DestTransactions [])).1.1) =
    [sq.Expr "htp.history_account_id = ?" [sq.Int 7];
     sq.Expr "ht.id >= ? AND ht.id < ?" [sq.Int 12884901888; sq.Int 17179869184];
     successful_only] ∧
  last (sq.WhereParts (sql (Select q (DestTransactions [])).1.1)) = Some successful_only.
Proof.
  destruct (Select_success_filter
              [CallForAccount "GA5WBPYA5Y4WAEHXWR2UKO2UO4BUGHUQ74EUPKON2QHV4WRHOIRNKKH2";
               CallForLedger 3] (DestTransactions []))
    as [_ Hsound].
  destruct (Hsound eq_refl) as [Hdefault _].
  destruct (Hdefault eq_refl) as (_ & Hparts & Hlast & _).
  split; [rewrite Hparts; reflexivity|exact Hlast].
Defined.

(** C2 refuted: a query for an account that does not exist carries an error;
    [Select] returns it and adds no success predicate. *)
Lemma Select_errored_query :
  let q := chain [CallForAccount "GNOBODY"] in
  existsb is_IncludeFailed [CallForAccount "GNOBODY"] = false ∧
  sq.WhereParts (sql (Select q (DestTransactions [])).1.1) = [] ∧
  sq.WhereParts (sql (Select q (DestTransactions [])).1.1) ≠
    (sq.WhereParts (sql q) ++ [successful_only])%list ∧
  (Select q (DestTransactions [])).2 = Some (External "sql: no rows in result set").
Proof.
  split; [reflexivity|]. split; [reflexivity|]. split; [|reflexivity].
  vm_compute. discriminate.
Qed.

(** C9 at two tables that hold the same two rows of ledger 123 in different
    orders: valid; invalid once the memo of the second legacy row is
    overwritten; valid again once that row is deleted and written back. *)
Lemma CheckExpTransactions_verdict_witness :
  (ShadowConsistencyChecker.CheckExpTransactions false run.consistent 123).1 = true ∧
  (ShadowConsistencyChecker.CheckExpTransactions false
     {| ShadowConsistencyChecker.history_transactions :=
          [run.stored 1 (Some "109530325")] ++ run.stored 2 (Some "invalid-memo") :: [];
        ShadowConsistencyChecker.exp_history_transactions :=
          ShadowConsistencyChecker.exp_history_transactions run.consistent |} 123).1 = false ∧
  (ShadowConsistencyChecker.CheckExpTransactions false
     {| ShadowConsistencyChecker.history_transactions :=
          ([run.stored 1 (Some "109530325")] ++ []) ++ [run.stored 2 (Some "hello world")];
        ShadowConsistencyChecker.exp_history_transactions :=
          ShadowConsistencyChecker.exp_history_transactions run.consistent |} 123).1 = true.
Proof.
  destruct (CheckExpTransactions_verdict false run.consistent 123)
    as (Hsame & _ & _ & Hmutation & _).
  assert (NoDup (ShadowConsistencyChecker.rowId <$>
                 filter (ShadowConsistencyChecker.in_ledger 123)
                        (ShadowConsistencyChecker.history_transactions run.consistent)))
    as Hkeys.
  { vm_compute. repeat constructor; rewrite ?elem_of_cons, ?elem_of_nil; intuition discriminate. }
  assert (filter (ShadowConsistencyChecker.in_ledger 123)
                 (ShadowConsistencyChecker.history_transactions run.consistent)
          ≡ₚ filter (ShadowConsistencyChecker.in_ledger 123)
                    (ShadowConsistencyChecker.exp_history_transactions run.consistent))
    as Hrows.
  { vm_compute. apply perm_swap. }
  split; [exact (Hsame Hkeys Hrows)|].
  apply (Hmutation [run.stored 1 (Some "109530325")] []
           (run.stored 2 (Some "hello world")) (run.stored 2 (Some "invalid-memo"))
           ShadowConsistencyChecker.col_memo eq_refl Hkeys Hrows).
  - vm_compute. split; [discriminate|reflexivity].
  - simpl. discriminate.
Defined.

End examples.

(** * Further properties *)

(** ** Rows written *)
Section rows_written.
Context `{!Xdr, !Lib}.

Implicit Types (transaction : io.LedgerTransaction) (row : Row).

Lemma memoType_no_error transaction e : memoType transaction ≠ Fail e.
Proof.
  unfold memoType.
  repeat match goal with
         | |- context [Z.eqb ?a ?b] => destruct (Z.eqb a b); [discriminate|]
         end.
  discriminate.
Qed.

Lemma bind_must_no_error {A B} arm (v : option A) (f : A → B) e :
  (a ← must arm v; Ret (f a)) ≠ Fail e.
Proof. destruct v; discriminate. Qed.

Lemma memo_no_error transaction e : memo transaction ≠ Fail e.
Proof.
  unfold memo.
  repeat match goal with
         | |- context [Z.eqb ?a ?b] =>
             destruct (Z.eqb a b); [first [discriminate | apply bind_must_no_error]|]
         end.
  discriminate.
Qed.

(** The columns of a row that [transactionToMap] returned. *)
Lemma transactionToMap_columns transaction sequence clock row clock' :
  transactionToMap transaction sequence clock = Ret (row, clock') →
  id row = ToInt64 (toid.New (int32 sequence) (int32 (io.Index transaction)) 0) ∧
  ledger_sequence row = sequence ∧
  application_order row = int32 (io.Index transaction) ∧
  max_fee row = int32 (xdr.Fee (xdr.Tx (io.Envelope transaction))) ∧
  fee_charged row = int32 (xdr.FeeCharged (xdr.Result_ (io.Result transaction))) ∧
  operation_count row =
    int32 (Z.of_nat (length (xdr.Operations (xdr.Tx (io.Envelope transaction))))).
Proof.
  unfold transactionToMap.
  destruct (MarshalBase64_envelope _) as [?|e1]; [discriminate|].
  destruct (MarshalBase64_result _) as [?|e2]; [discriminate|].
  destruct (MarshalBase64_meta _) as [?|e3]; [discriminate|].
  destruct (MarshalBase64_changes _) as [?|e4]; [discriminate|].
  simpl.
  destruct (memoType transaction) as [mt| |]; simpl; try discriminate.
  destruct (memo transaction) as [m| |]; simpl; try discriminate.
  intros [= <- <-]. simpl. repeat split; reflexivity.
Qed.

(** X1. [transactionToMap] returns an ordinary error exactly when one of its
    four serializations fails, and the error is that of the first to fail, in
    the order envelope, result, meta, fee changes; it panics only when all
    four succeeded and one of the memo functions panics; it returns a row,
    after reading the clock twice, exactly when the four serializations and
    both memo functions succeed. *)
Theorem transactionToMap_outcome transaction sequence clock :
  (∀ e, transactionToMap transaction sequence clock = Fail e ↔
        ∃ x, serialization_error transaction = Some x ∧ e = External x) ∧
  (∀ msg, transactionToMap transaction sequence clock = Panic msg →
          serialization_error transaction = None ∧
          (memoType transaction = Panic msg ∨ memo transaction = Panic msg)) ∧
  ((∃ row clock', transactionToMap transaction sequence clock = Ret (row, clock')) ↔
   serialization_error transaction = None ∧
   (∃ mt, memoType transaction = Ret mt) ∧ (∃ m, memo transaction = Ret m)) ∧
  (∀ row clock', transactionToMap transaction sequence clock = Ret (row, clock') →
                 clock' = S (S clock)).
Proof.
  pose proof (memoType_no_error transaction) as HmemoType.
  pose proof (memo_no_error transaction) as Hmemo.
  unfold transactionToMap, serialization_error.
  destruct (MarshalBase64_envelope _) as [x1|e1]; simpl; [serialization_fails|].
  destruct (MarshalBase64_result _) as [x2|e2]; simpl; [serialization_fails|].
  destruct (MarshalBase64_meta _) as [x3|e3]; simpl; [serialization_fails|].
  destruct (MarshalBase64_changes _) as [x4|e4]; simpl; [serialization_fails|].
  destruct (memoType transaction) as [mt|e|msg1]; simpl;
    [destruct (memo transaction) as [m|e|msg2]; simpl| |].
  - split; [intros e; split; [discriminate|intros (x & ? & _); discriminate]|].
    split; [discriminate|]. split; [split; eauto|].
    now intros row clock' [= _ <-].
  - now destruct (Hmemo e).
  - split; [intros e; split; [discriminate|intros (x & ? & _); discriminate]|].
    split; [intros msg [= <-]; split; [reflexivity|now right]|].
    split; [|discriminate].
    split; [intros (? & ? & ?); discriminate|intros (_ & _ & ? & ?); discriminate].
  - now destruct (HmemoType e).
  - split; [intros e; split; [discriminate|intros (x & ? & _); discriminate]|].
    split; [intros msg [= <-]; split; [reflexivity|now left]|].
    split; [|discriminate].
    split; [intros (? & ? & ?); discriminate|intros (_ & (? & ?) & _); discriminate].
Qed.

Lemma int32_range x : - 2 ^ 31 ≤ int32 x < 2 ^ 31.
Proof.
  unfold int32. pose proof (Z.mod_pos_bound (x + 2 ^ 31) (2 ^ 32)). lia.
Qed.

Lemma int32_small x : - 2 ^ 31 ≤ x < 2 ^ 31 → int32 x = x.
Proof. intros Hx. unfold int32. rewrite Z.mod_small; lia. Qed.

Lemma int32_wrap x : 2 ^ 31 ≤ x < 2 ^ 32 → int32 x = x - 2 ^ 32.
Proof.
  intros Hx. unfold int32.
  replace (x + 2 ^ 31) with ((x - 2 ^ 31) + 1 * 2 ^ 32) by lia.
  rewrite Z.mod_add by lia. rewrite Z.mod_small; lia.
Qed.

(** X2. In a row that [transactionToMap] returned, the columns converted to
    [int32] (application order, max fee, fee charged, operation count) always
    lie in the signed 32-bit range; the max fee is the declared fee when that
    is below 2^31 and the declared fee minus 2^32, a negative number, when it
    is a larger unsigned 32-bit value; the ledger sequence is stored as it
    was given. *)
Theorem transactionToMap_int32_columns transaction sequence clock row clock' :
  transactionToMap transaction sequence clock = Ret (row, clock') →
  let fee := xdr.Fee (xdr.Tx (io.Envelope transaction)) in
  (- 2 ^ 31 ≤ application_order row < 2 ^ 31) ∧
  (- 2 ^ 31 ≤ max_fee row < 2 ^ 31) ∧
  (- 2 ^ 31 ≤ fee_charged row < 2 ^ 31) ∧
  (- 2 ^ 31 ≤ operation_count row < 2 ^ 31) ∧
  (0 ≤ fee < 2 ^ 31 → max_fee row = fee) ∧
  (2 ^ 31 ≤ fee < 2 ^ 32 → max_fee row = fee - 2 ^ 32 ∧ max_fee row < 0) ∧
  ledger_sequence row = sequence.
Proof.
  intros Hrun fee.
  destruct (transactionToMap_columns _ _ _ _ _ Hrun)
    as (_ & Hledger & -> & Hfee & -> & ->).
  rewrite Hfee. fold fee.
  split; [apply int32_range|]. split; [apply int32_range|].
  split; [apply int32_range|]. split; [apply int32_range|].
  split; [intros Hsmall; apply int32_small; lia|].
  split; [|exact Hledger].
  intros Hlarge. rewrite int32_wrap by assumption. lia.
Qed.

(** X4. [formatTimeBounds] returns nil exactly when the envelope declares no
    bounds. When it declares some, the stored interval starts at the declared
    min time, which is never clamped, and its upper end is NULL when the
    declared max time is 0 and the smaller of the declared max time and the
    largest signed 64-bit value otherwise; so for a max time that is an
    unsigned 64-bit value the upper end always fits a signed 64-bit
    column. *)
Theorem formatTimeBounds_upper transaction :
  (formatTimeBounds transaction = None ↔
   xdr.TimeBounds_ (xdr.Tx (io.Envelope transaction)) = None) ∧
  (∀ bounds,
     xdr.TimeBounds_ (xdr.Tx (io.Envelope transaction)) = Some bounds →
     ∃ upper,
       formatTimeBounds transaction =
         Some (sq.Expr "int8range(?,?)" [sq.Int (xdr.MinTime bounds); upper]) ∧
       (xdr.MaxTime bounds = 0 → upper = sq.Nil) ∧
       (xdr.MaxTime bounds ≠ 0 →
        upper = sq.Int (Z.min (xdr.MaxTime bounds) MaxInt64)) ∧
       (0 < xdr.MaxTime bounds < 2 ^ 64 →
        ∃ u, upper = sq.Int u ∧ 0 < u ≤ MaxInt64)).
Proof.
  unfold formatTimeBounds. split.
  - destruct (xdr.TimeBounds_ _) as [bounds|]; [|tauto].
    destruct (xdr.MaxTime bounds =? 0); split; discriminate.
  - intros bounds ->.
    destruct (Z.eqb_spec (xdr.MaxTime bounds) 0) as [Hzero|Hmax].
    + eexists. split; [reflexivity|]. split; [reflexivity|].
      split; [contradiction|]. lia.
    + destruct (Z.ltb_spec MaxInt64 (xdr.MaxTime bounds)) as [Hover|Hfits];
        (eexists; split; [reflexivity|]); (split; [contradiction|]).
      * rewrite Z.min_r by lia. split; [reflexivity|].
        intros _. eexists. split; [reflexivity|]. unfold MaxInt64. lia.
      * rewrite Z.min_l by lia. split; [reflexivity|].
        intros Hpos. eexists. split; [reflexivity|]. lia.
Qed.

End rows_written.

(** ** Memo *)
Section memo_more.
Context `{!Xdr, !Lib}.

Implicit Types (transaction : io.LedgerTransaction).

Lemma bind_must_valid {A} arm (v : option A) (f : A → string) m :
  (a ← must arm v; Ret (null.NewString (f a) true)) = Ret m → null.Valid m = true.
Proof. destruct v; simpl; [|discriminate]. now intros [= <-]. Qed.

(** X5. [memoType] returns nothing but the five names of the column, and
    [memo] agrees with it: whenever [memo] returns, [memoType] returns too,
    and the value [memo] returns is NULL (and empty) exactly when [memoType]
    returns "none". *)
Theorem memo_agrees_with_memoType transaction :
  (∀ name, memoType transaction = Ret name →
           name ∈ ["none"; "text"; "id"; "hash"; "return"]) ∧
  (∀ m, memo transaction = Ret m →
        (∃ name, memoType transaction = Ret name) ∧
        (null.Valid m = false ↔ memoType transaction = Ret "none") ∧
        (null.Valid m = false → null.String_ m = "")).
Proof.
  unfold memoType, memo. split.
  - intros name.
    repeat match goal with
           | |- context [Z.eqb ?a ?b] =>
               destruct (Z.eqb a b); [intros [= <-]; set_solver|]
           end.
    discriminate.
  - intros m.
    destruct (Z.eqb _ MemoTypeMemoNone).
    { intros [= <-]. simpl. split; [eauto|]. split; [tauto|reflexivity]. }
    repeat match goal with
           | |- context [Z.eqb ?a ?b] =>
               destruct (Z.eqb a b);
               [intros Hm; apply bind_must_valid in Hm; rewrite Hm;
                split; [eauto|]; split; [split; discriminate|discriminate]|]
           end.
    discriminate.
Qed.

Lemma without_length c s : (String.length (without c s) ≤ String.length s)%nat.
Proof.
  induction s as [|a s IH]; simpl; [lia|]. destruct (Ascii.eqb a c); simpl; lia.
Qed.

Lemma without_changed c s : without c s = s → ¬ occurs c s.
Proof.
  induction s as [|a s IH]; simpl; [tauto|].
  destruct (Ascii.eqb a c) eqn:E.
  - intros Heq. pose proof (without_length c s) as Hlen.
    rewrite Heq in Hlen. simpl in Hlen. lia.
  - intros [= Heq]. apply Ascii.eqb_neq in E. intros [->|Hin]; [congruence|].
    now apply IH.
Qed.

(** X6. For a memo of type [text], the stored value is never longer than the
    scrubbed text, and it is the scrubbed text itself exactly when that holds
    no NUL byte: deleting NUL bytes is all [memo] does to what [utf8.Scrub]
    returns. *)
Theorem memo_text_otherwise_unchanged transaction text m :
  MemoTypeMemoText ≠ MemoTypeMemoNone →
  xdr.Type_ (xdr.Memo_ (xdr.Tx (io.Envelope transaction))) = MemoTypeMemoText →
  MustText (xdr.Memo_ (xdr.Tx (io.Envelope transaction))) = Some text →
  memo transaction = Ret m →
  null.Valid m = true ∧
  (String.length (null.String_ m) ≤ String.length (Scrub text))%nat ∧
  (null.String_ m = Scrub text ↔ ¬ occurs Ascii.zero (Scrub text)).
Proof.
  intros Hdistinct Htype Htext. unfold memo. rewrite Htype, Htext.
  destruct (Z.eqb_spec MemoTypeMemoText MemoTypeMemoNone); [contradiction|].
  rewrite Z.eqb_refl. simpl. rewrite Join_Split_NUL. intros [= <-]. simpl.
  split; [reflexivity|]. split; [apply without_length|].
  split; [apply without_changed|apply without_fixed].
Qed.

End memo_more.

(** ** Queries *)
Section query_more.
Context `{!Xdr, !Lib, !Session}.

Implicit Types (q : TransactionsQ) (t : Transaction) (cs : list Call).

(** X3. Writing and reading agree on the key range of a ledger: for a key
    function that grows with the lexicographic order of the triples, a
    sequence below the largest signed 32-bit value and a transaction index in
    the signed 32-bit range, the id of the row [transactionToMap] returns
    lies in the range that [ForLedger] puts on a query for the same
    sequence. *)
Theorem written_row_in_ForLedger_range transaction sequence clock row clock' q
    (valid : toid.ID → Prop) :
  transactionToMap transaction sequence clock = Ret (row, clock') →
  LedgerBySequence sequence = None →
  (∀ a b, valid a → valid b → lex_lt a b → ToInt64 a < ToInt64 b) →
  0 ≤ sequence < 2 ^ 31 - 1 →
  0 ≤ io.Index transaction < 2 ^ 31 →
  valid (toid.New sequence 0 0) → valid (toid.New (sequence + 1) 0 0) →
  valid (toid.New sequence (io.Index transaction) 0) →
  ∃ lo hi,
    sq.WhereParts (sql (ForLedger q sequence)) =
      (sq.WhereParts (sql q)
         ++ [sq.Expr "ht.id >= ? AND ht.id < ?" [sq.Int lo; sq.Int hi]])%list ∧
    lo ≤ id row ∧ id row < hi.
Proof.
  intros Hrun Hfound Hlex Hseq Hindex Hstart Hend Hkey.
  destruct (transactionToMap_columns _ _ _ _ _ Hrun) as (-> & _).
  rewrite !int32_small by lia.
  unfold ForLedger. rewrite Hfound. cbn [sql sq.Where sq.WhereParts].
  rewrite int32_small by lia.
  eexists _, _. split; [reflexivity|].
  fold (toid.New sequence 0 0). fold (toid.New (sequence + 1) 0 0). split.
  - destruct (Z.eq_dec (io.Index transaction) 0) as [->|]; [lia|].
    apply Z.lt_le_incl, Hlex; try assumption.
    unfold lex_lt, toid.New; simpl. right. split; [reflexivity|]. left. lia.
  - apply Hlex; try assumption. unfold lex_lt, toid.New; simpl. left. lia.
Qed.

(** X7. An error on the query stops [Page] and [Select], which leave the
    query as it is, and survives [IncludeFailed]; it does not survive
    [ForAccount] or [ForLedger], which overwrite it with the result of their
    own lookup: after a lookup that succeeds the query carries no error, and
    the part the failed call would have added is missing from it. *)
Theorem error_is_overwritten_by_lookups q e :
  Err q = Some e →
  (∀ page, Page q page = q) ∧
  (∀ dest, Select q dest = (q, dest, Some e)) ∧
  Err (IncludeFailed q) = Some e ∧
  (∀ aid account,
     AccountByAddress aid = inr account →
     Err (ForAccount q aid) = None ∧
     sq.WhereParts (sql (ForAccount q aid)) =
       (sq.WhereParts (sql q)
          ++ [sq.Expr "htp.history_account_id = ?" [sq.Int (Account_ID account)]])%list) ∧
  (∀ seq, LedgerBySequence seq = None → Err (ForLedger q seq) = None).
Proof.
  intros HErr. split; [|split; [|split; [|split]]].
  - intros page. unfold Page. now rewrite HErr.
  - intros dest. unfold Select. now rewrite HErr.
  - exact HErr.
  - intros aid account Hfound. unfold ForAccount. rewrite Hfound. split; reflexivity.
  - intros seq Hfound. unfold ForLedger. now rewrite Hfound.
Qed.

Lemma WhereParts_call q c :
  is_Page c = false →
  sq.WhereParts (sql (call q c)) = (sq.WhereParts (sql q) ++ parts_of c)%list ∧
  sq.Columns (sql (call q c)) = sq.Columns (sql q) ∧
  sq.From_ (sql (call q c)) = sq.From_ (sql q).
Proof.
  destruct c as [aid|seq| |page]; simpl; [| | |discriminate]; intros _.
  - unfold ForAccount. destruct (AccountByAddress aid); simpl;
      now rewrite ?app_nil_r.
  - unfold ForLedger. destruct (LedgerBySequence seq); simpl;
      now rewrite ?app_nil_r.
  - now rewrite app_nil_r.
Qed.

(** X8. The scoping calls compose by conjunction, in the order they are
    made: a chain of [ForAccount], [ForLedger] and [IncludeFailed] calls on
    [Transactions()] selects the columns of [selectTransaction] from the same
    table, and its WHERE clause holds, in call order, one part for each
    lookup that succeeded and none for a lookup that failed or for
    [IncludeFailed]; the chain includes failed transactions exactly when
    [IncludeFailed] is one of the calls. *)
Theorem chain_composes cs :
  existsb is_Page cs = false →
  sq.WhereParts (sql (chain cs)) = concat (parts_of <$> cs) ∧
  sq.Columns (sql (chain cs)) = sq.Columns selectTransaction ∧
  sq.From_ (sql (chain cs)) = "history_transactions ht" ∧
  includeFailed (chain cs) = existsb is_IncludeFailed cs.
Proof.
  intros Hscoping.
  assert (∀ q,
            sq.WhereParts (sql (fold_left call cs q)) =
              (sq.WhereParts (sql q) ++ concat (parts_of <$> cs))%list ∧
            sq.Columns (sql (fold_left call cs q)) = sq.Columns (sql q) ∧
            sq.From_ (sql (fold_left call cs q)) = sq.From_ (sql q)) as Hfold.
  { induction cs as [|c cs IH]; intros q; simpl.
    - now rewrite app_nil_r.
    - simpl in Hscoping. apply orb_false_iff in Hscoping as [Hc Hcs].
      destruct (IH Hcs (call q c)) as (-> & -> & ->).
      destruct (WhereParts_call q c Hc) as (-> & -> & ->).
      now rewrite <- app_assoc. }
  destruct (Hfold Transactions) as (Hparts & Hcolumns & Hfrom).
  unfold chain. rewrite Hparts, Hcolumns, Hfrom.
  split; [reflexivity|]. split; [reflexivity|]. split; [reflexivity|].
  apply includeFailed_chain.
Qed.

Lemma check_transaction_None include_failed t :
  check_transaction include_failed t = None ↔ sound_row include_failed t.
Proof.
  unfold check_transaction, sound_row.
  destruct (SafeUnmarshalBase64 (TxResult t)) as [e|resultXDR].
  { split; [discriminate|]. intros (? & ? & _). discriminate. }
  destruct include_failed, (IsSuccessful t),
    (xdr.Code (xdr.Result resultXDR) =? TransactionResultCodeTxSuccess) eqn:Hcode;
    cbn; split;
    first [ discriminate
          | intros _; eexists; split; [reflexivity|]; rewrite Hcode; now split
          | intros (r & [= <-] & Hflag & Hdefault); rewrite Hcode in Hflag;
            first [discriminate | specialize (Hdefault eq_refl); discriminate]
          | reflexivity ].
Qed.

(** X9. [Select] returns no error exactly when the query carries none, the
    session runs it without error into a slice of transactions, and every
    row loaded passes: its result payload decodes, its flag (unset counting
    as true) equals "the decoded code is the success code", and, unless
    failed rows are included, it is successful. *)
Theorem Select_returns_nil q dest :
  (Select q dest).2 = None ↔
  Err q = None ∧
  ∃ ts,
    parent_Select dest
      (if negb (includeFailed q)
       then sq.Where (sql q) "(ht.successful = true OR ht.successful IS NULL)" []
       else sql q) = (DestTransactions ts, None) ∧
    (Select q dest).1.2 = DestTransactions ts ∧
    Forall (sound_row (includeFailed q)) ts.
Proof.
  unfold Select. destruct (Err q) as [e|].
  { split; [discriminate|]. intros [? _]. discriminate. }
  destruct (parent_Select dest _) as [dest1 [e|]]; cbn [fst snd].
  { split; [discriminate|]. intros (_ & ts & ? & _). discriminate. }
  destruct dest1 as [ts|]; cbn [fst snd].
  - rewrite check_transactions_None. split.
    + intros Hall. split; [reflexivity|]. exists ts.
      split; [reflexivity|]. split; [reflexivity|].
      eapply Forall_impl; [exact Hall|]. intros t. apply check_transaction_None.
    + intros (_ & ts' & [= <-] & _ & Hall).
      eapply Forall_impl; [exact Hall|]. intros t. apply check_transaction_None.
  - split; [discriminate|]. intros (_ & ts & ? & _). discriminate.
Qed.

(** The query [Select] leaves behind when it got past the first test. *)
Lemma Select_query q dest :
  Err q = None →
  let sql1 :=
    if negb (includeFailed q)
    then sq.Where (sql q) "(ht.successful = true OR ht.successful IS NULL)" []
    else sql q in
  (Select q dest).1.1 =
    {| Err := External <$> (parent_Select dest sql1).2; sql := sql1;
       includeFailed := includeFailed q |} ∧
  (∀ e, (parent_Select dest sql1).2 = Some e → (Select q dest).2 = Some (External e)).
Proof.
  intros HErr sql1. subst sql1. unfold Select. rewrite HErr.
  destruct (parent_Select dest _) as [dest1 [e|]]; cbn [fst snd].
  - split; [reflexivity|]. now intros e' [= <-].
  - destruct dest1; cbn [fst snd]; split; try reflexivity; discriminate.
Qed.

(** X10. [Select] changes the query it is called on. A second [Select] on a
    query that excludes failed transactions, after a first one that the
    session ran without error, adds the success predicate once more; after a
    first one in which the session failed, the query carries that error and a
    second [Select] returns it without running anything. *)
Theorem Select_again q dest dest' :
  Err q = None →
  includeFailed q = false →
  let first := Select q dest in
  ((parent_Select dest (sq.Where (sql q) "(ht.successful = true OR ht.successful IS NULL)" [])).2
     = None →
   sq.WhereParts (sql (Select first.1.1 dest').1.1) =
     (sq.WhereParts (sql q) ++ [successful_only; successful_only])%list) ∧
  (∀ e,
     (parent_Select dest (sq.Where (sql q) "(ht.successful = true OR ht.successful IS NULL)" [])).2
       = Some e →
     first.2 = Some (External e) ∧
     Select first.1.1 dest' = (first.1.1, dest', Some (External e))).
Proof.
  intros HErr Hdefault first. subst first.
  destruct (Select_query q dest HErr) as [Hquery Hfails].
  rewrite Hdefault in Hquery, Hfails. cbn [negb] in Hquery, Hfails.
  rewrite Hquery. split.
  - intros Hran. rewrite Hran. cbn [fmap option_fmap option_map].
    rewrite Select_sql by reflexivity.
    cbn [negb includeFailed sql sq.Where sq.WhereParts]. now rewrite <- app_assoc.
  - intros e Hfailed. split; [now apply Hfails|].
    rewrite Hfailed. reflexivity.
Qed.

End query_more.

(** ** Queries by id and the writers *)
Section writers_more.
Context `{!Xdr, !Lib, !Session, !Accounts}.

(** A map filled row by row, each row under its key, holds under a key the
    last row of that key. *)
Lemma index_lookup {A V} `{Countable K} (key : A → K) (value : A → V)
    (rows : list A) (m : gmap K V) (k : K) :
(fold_left (fun m row => <[key row := value row]> m) rows m) !! k =
    match last (with_key key k rows) with
    | Some row => Some (value row)
    | None => m !! k
    end.
Proof.
  unfold with_key. revert m. induction rows as [|row rows IH]; intros m; [reflexivity|].
  cbn [fold_left]. rewrite IH. destruct (decide (key row = k)) as [Hk|Hk].
  - rewrite filter_cons_True by assumption. rewrite last_cons.
    destruct (last (filter _ rows)); [reflexivity|].
    rewrite <- Hk. apply lookup_insert_eq.
  - rewrite filter_cons_False by assumption.
    destruct (last (filter _ rows)); [reflexivity|].
    now apply lookup_insert_ne.
Qed.

Lemma last_with_key {A} `{EqDecision K} (key : A → K) (k : K) (rows : list A) row :
  last (with_key key k rows) = Some row → key row = k ∧ row ∈ rows.
Proof.
  intros Hlast. apply last_Some_elem_of in Hlast.
  unfold with_key in Hlast. apply list_elem_of_filter in Hlast. tauto.
Qed.

Lemma with_key_elem_of {A} `{EqDecision K} (key : A → K) (rows : list A) row :
  row ∈ rows → is_Some (last (with_key key (key row) rows)).
Proof.
  intros Hin. destruct (last (with_key key (key row) rows)) eqn:Hlast; [eauto|].
  apply last_None in Hlast.
  assert (row ∈ with_key key (key row) rows) as Hrow
    by (apply list_elem_of_filter; tauto).
  rewrite Hlast in Hrow. now apply elem_of_nil in Hrow.
Qed.

(** X11. [TransactionsByIDs] with no id returns the error "no id arguments
    provided". With ids, it runs [selectTransaction] with one WHERE part, the
    test of the id against the list, and no success predicate, so failed
    transactions are loaded as well; it returns the session's error if there
    is one, and otherwise a map that holds under each id the last loaded row
    of that id: every loaded row's id is a key, and every value is a loaded
    row filed under its own id. *)
Theorem TransactionsByIDs_index ids :
  (ids = [] → TransactionsByIDs ids = inl (Errorf "no id arguments provided")) ∧
  (ids ≠ [] →
   sq.WhereParts (Where_in selectTransaction "ht.id" ids) =
     [sq.Expr ("ht.id IN (" +:+ Placeholders (length ids) +:+ ")") (sq.Int <$> ids)] ∧
   (successful_only ∉ sq.WhereParts (Where_in selectTransaction "ht.id" ids)) ∧
   (∀ dest e,
      parent_Select (DestTransactions []) (Where_in selectTransaction "ht.id" ids)
        = (dest, Some e) →
      TransactionsByIDs ids = inl (External e)) ∧
   (∀ ts,
      parent_Select (DestTransactions []) (Where_in selectTransaction "ht.id" ids)
        = (DestTransactions ts, None) →
      ∃ byID,
        TransactionsByIDs ids = inr byID ∧
        (∀ k, byID !! k = last (with_key ID k ts)) ∧
        (∀ k t, byID !! k = Some t → ID t = k ∧ t ∈ ts) ∧
        (∀ t, t ∈ ts → is_Some (byID !! ID t)))).
Proof.
  split; [now intros ->|].
  intros Hids. unfold TransactionsByIDs.
  destruct ids as [|i ids]; [contradiction|]. cbn [length Nat.eqb].
  split; [reflexivity|]. split.
  { cbn [Where_in sq.Where sq.WhereParts selectTransaction sq.LeftJoin sq.JoinClause
         sq.From sq.Select app].
    intros Hin. apply list_elem_of_singleton in Hin. discriminate. }
  split.
  - intros dest e ->. reflexivity.
  - intros ts ->. eexists. split; [reflexivity|].
    assert (∀ k,
              (fold_left (fun byID transaction => <[ID transaction := transaction]> byID)
                         ts (∅ : gmap Z Transaction)) !! k = last (with_key ID k ts))
      as Hlookup.
    { intros k. rewrite (index_lookup ID (fun t => t) ts ∅ k), lookup_empty.
      now destruct (last _). }
    split; [exact Hlookup|]. split.
    + intros k t. rewrite Hlookup. apply last_with_key.
    + intros t Hin. rewrite Hlookup. now apply with_key_elem_of.
Qed.

Lemma InsertValues_fold addresses b :
  InsertValues (fold_left (fun sql address => Values sql [sq.Str address]) addresses b) =
    (InsertValues b ++ ((fun address => [sq.Str address]) <$> addresses))%list ∧
  Into (fold_left (fun sql address => Values sql [sq.Str address]) addresses b) = Into b ∧
  InsertColumns (fold_left (fun sql address => Values sql [sq.Str address]) addresses b)
    = InsertColumns b ∧
  Suffixes (fold_left (fun sql address => Values sql [sq.Str address]) addresses b)
    = Suffixes b.
Proof.
  revert b. induction addresses as [|a addresses IH]; intros b; simpl.
  - now rewrite app_nil_r.
  - destruct (IH (Values b [sq.Str a])) as (-> & -> & -> & ->). simpl.
    now rewrite <- app_assoc.
Qed.

(** X12. [CreateExpAccounts] inserts into [history_accounts] one row of
    values per address, in the order given and duplicates included (none for
    an empty list: the call is not guarded), ending in the ON CONFLICT ...
    RETURNING suffix. It returns the session's error if there is one, and
    otherwise a map that holds under each address the id of the last returned
    account with that address; when the session returns an account for every
    address asked for, every such address is a key of the map. *)
Theorem CreateExpAccounts_index addresses :
  Into (create_accounts_sql addresses) = "history_accounts" ∧
  InsertColumns (create_accounts_sql addresses) = ["address"] ∧
  InsertValues (create_accounts_sql addresses) =
    ((fun address => [sq.Str address]) <$> addresses) ∧
  Suffixes (create_accounts_sql addresses) =
    ["ON CONFLICT (address) DO UPDATE SET address=EXCLUDED.address RETURNING *"] ∧
  (∀ accounts e,
     Select_accounts (create_accounts_sql addresses) = (accounts, Some e) →
     CreateExpAccounts addresses = inl (External e)) ∧
  (∀ accounts,
     Select_accounts (create_accounts_sql addresses) = (accounts, None) →
     ∃ addressToID,
       CreateExpAccounts addresses = inr addressToID ∧
       (∀ a, addressToID !! a =
             Account_ID <$> last (with_key Account_Address a accounts)) ∧
       ((∀ a, a ∈ addresses → ∃ account, account ∈ accounts ∧ Account_Address account = a) →
        ∀ a, a ∈ addresses → is_Some (addressToID !! a))).
Proof.
  unfold create_accounts_sql at 1 2 3 4. cbn [Suffix Into InsertColumns InsertValues Suffixes].
  destruct (InsertValues_fold addresses (Columns (Insert "history_accounts") ["address"]))
    as (-> & -> & -> & ->).
  split; [reflexivity|]. split; [reflexivity|]. split; [reflexivity|].
  split; [reflexivity|]. unfold CreateExpAccounts. split.
  - intros accounts e ->. reflexivity.
  - intros accounts ->. eexists. split; [reflexivity|].
    assert (∀ a,
              (fold_left (fun addressToID account =>
                            <[Account_Address account := Account_ID account]> addressToID)
                         accounts (∅ : gmap string Z)) !! a =
                Account_ID <$> last (with_key Account_Address a accounts)) as Hlookup.
    { intros a. rewrite (index_lookup Account_Address Account_ID accounts ∅ a), lookup_empty.
      now destruct (last _). }
    split; [exact Hlookup|].
    intros Hreturned a Ha. rewrite Hlookup.
    destruct (Hreturned a Ha) as (account & Hin & <-).
    destruct (with_key_elem_of Account_Address accounts account Hin) as [x ->].
    simpl. eauto.
Qed.

End writers_more.

Section batch_more.
Context `{!Xdr, !Lib, !Batch}.

(** X13. [Add] hands the builder a row only when [transactionToMap] returned
    one, and then exactly that row, returning the builder's error if there is
    one. When a serialization fails, [Add] returns that error and leaves the
    builder as it was; when the memo type is none of the five known ones and
    the serializations succeed, it panics and leaves the builder as it
    was. *)
Theorem Add_hands_over_normalized_rows i transaction sequence clock :
  (∀ m clock',
     transactionToMap transaction sequence clock = Ret (m, clock') →
     (Add i transaction sequence clock).1 = (builder_Row i m).1 ∧
     (Add i transaction sequence clock).2 =
       match (builder_Row i m).2 with
       | Some e => Fail (External e)
       | None => Ret clock'
       end) ∧
  (∀ e, serialization_error transaction = Some e →
        Add i transaction sequence clock = (i, Fail (External e))) ∧
  (¬ known_memo_type (xdr.Type_ (xdr.Memo_ (xdr.Tx (io.Envelope transaction)))) →
   serialization_error transaction = None →
   Add i transaction sequence clock =
     (i, Panic (invalid_memo_type
                  (xdr.Type_ (xdr.Memo_ (xdr.Tx (io.Envelope transaction))))))).
Proof.
  unfold Add. split; [|split].
  - intros m clock' ->. now destruct (builder_Row i m) as [i' [e|]].
  - intros e Hfails. unfold transactionToMap. unfold serialization_error in Hfails.
    destruct (MarshalBase64_envelope _); [now inversion Hfails|].
    destruct (MarshalBase64_result _); [now inversion Hfails|].
    destruct (MarshalBase64_meta _); [now inversion Hfails|].
    destruct (MarshalBase64_changes _); [now inversion Hfails|].
    discriminate.
  - intros Hunknown Hserialized.
    pose proof (memoType_unknown _ Hunknown) as HmemoType.
    unfold transactionToMap. unfold serialization_error in Hserialized.
    destruct (MarshalBase64_envelope _); [discriminate|].
    destruct (MarshalBase64_result _); [discriminate|].
    destruct (MarshalBase64_meta _); [discriminate|].
    destruct (MarshalBase64_changes _); [discriminate|].
    simpl. now rewrite HmemoType.
Qed.

End batch_more.


(** ** Rows written, read back *)
Section round_trip.
Context `{!Xdr, !Lib}.

Implicit Types (transaction : io.LedgerTransaction) (row : Row).

(** X15. A row that [transactionToMap] wrote passes the checks of [Select]
    when it is read back, provided result payloads keep their code through
    the codec: read with failed rows included it yields no error, and read
    without them it yields no error when it is successful and the
    "include_failed=false" error when it is not. *)
Theorem written_row_passes_Select transaction sequence clock row clock' :
  (∀ result data,
     MarshalBase64_result result = inr data →
     ∃ decoded, SafeUnmarshalBase64 data = inr decoded ∧
                xdr.Code (xdr.Result decoded) = xdr.Code (xdr.Result result)) →
  transactionToMap transaction sequence clock = Ret (row, clock') →
  check_transaction true (read_back row) = None ∧
  (successful row = true → check_transaction false (read_back row) = None) ∧
  (successful row = false →
   check_transaction false (read_back row) =
     Some (Errorf ("Corrupted data! `include_failed=false` but returned transaction is failed: "
                   +:+ transaction_hash row))).
Proof.
  intros Hcodec. unfold transactionToMap.
  destruct (MarshalBase64_envelope _) as [?|e1]; [discriminate|].
  destruct (MarshalBase64_result _) as [?|e2] eqn:Hresult; [discriminate|].
  destruct (MarshalBase64_meta _) as [?|e3]; [discriminate|].
  destruct (MarshalBase64_changes _) as [?|e4]; [discriminate|].
  simpl.
  destruct (memoType transaction) as [mt| |]; simpl; try discriminate.
  destruct (memo transaction) as [m| |]; simpl; try discriminate.
  intros [= <- _]. destruct (Hcodec _ _ Hresult) as (decoded & Hdecode & Hcode).
  unfold check_transaction, read_back, IsSuccessful. cbn [TxResult tx_result Successful
    successful TransactionHash transaction_hash].
  rewrite Hdecode, Hcode.
  destruct (xdr.Code _ =? TransactionResultCodeTxSuccess); cbn;
    repeat split; try reflexivity; discriminate.
Qed.

End round_trip.

(** * More worked examples *)
Section more_examples.
#[local] Existing Instances run.wire run.lib run.db ledger.registrar ledger.rows.

(** X2 at a transaction that declares the largest unsigned 32-bit fee: the
    row stores -1. *)
Lemma transactionToMap_int32_columns_witness :
  ∃ row,
    transactionToMap (ledger.with_fee 4294967295) 123 0 = Ret (row, 2%nat) ∧
    max_fee row = -1.
Proof.
  eexists. split; [vm_compute; reflexivity|].
  edestruct (transactionToMap_int32_columns (ledger.with_fee 4294967295) 123 0%nat)
    as (_ & _ & _ & _ & _ & Hwraps & _); [vm_compute; reflexivity|].
  destruct Hwraps as [Hfee _]; [simpl; lia|]. exact Hfee.
Defined.

(** X3 at a transaction of ledger 123. *)
Lemma written_row_in_ForLedger_range_witness :
  ∃ row lo hi,
    transactionToMap (run.transaction_with (run.memo_of 0 None) None 0) 123 0
      = Ret (row, 2%nat) ∧
    sq.WhereParts (sql (ForLedger Transactions 123)) =
      [sq.Expr "ht.id >= ? AND ht.id < ?" [sq.Int lo; sq.Int hi]] ∧
    lo ≤ id row ∧ id row < hi.
Proof.
  eexists.
  edestruct written_row_in_ForLedger_range
    with (transaction := run.transaction_with (run.memo_of 0 None) None 0)
         (sequence := 123) (clock := 0%nat) (q := Transactions) (valid := run.packable)
    as (lo & hi & Hparts & Hrange);
    [vm_compute; reflexivity | reflexivity | exact pack_lex
    | lia | simpl; lia
    | unfold run.packable; simpl; lia | unfold run.packable; simpl; lia
    | unfold run.packable; simpl; lia |].
  exists lo, hi. split; [reflexivity|]. split; [exact Hparts|exact Hrange].
Defined.

(** X6 at a text without NUL bytes. *)
Lemma memo_text_otherwise_unchanged_witness :
  memo (run.transaction_with (run.memo_of 1 (Some "hello world")) None 0)
    = Ret (null.NewString "hello world" true) ∧
  null.String_ (null.NewString "hello world" true) = Scrub "hello world".
Proof.
  split; [reflexivity|].
  apply (memo_text_otherwise_unchanged
           (run.transaction_with (run.memo_of 1 (Some "hello world")) None 0)
           "hello world" (null.NewString "hello world" true)).
  - vm_compute. discriminate.
  - reflexivity.
  - reflexivity.
  - reflexivity.
  - vm_compute. intuition discriminate.
Defined.

(** X7 at a query for a ledger that does not exist, then for an account that
    does: the error of the first lookup is gone, and so is the range. *)
Lemma error_is_overwritten_by_lookups_witness :
  Err (ForLedger Transactions 5000) = Some (External "sql: no rows in result set") ∧
  Err (ForAccount (ForLedger Transactions 5000)
         "GA5WBPYA5Y4WAEHXWR2UKO2UO4BUGHUQ74EUPKON2QHV4WRHOIRNKKH2") = None ∧
  sq.WhereParts
    (sql (ForAccount (ForLedger Transactions 5000)
            "GA5WBPYA5Y4WAEHXWR2UKO2UO4BUGHUQ74EUPKON2QHV4WRHOIRNKKH2")) =
    [sq.Expr "htp.history_account_id = ?" [sq.Int 7]].
Proof.
  split; [reflexivity|].
  assert (Err (ForLedger Transactions 5000) = Some (External "sql: no rows in result set"))
    as Hmissing by reflexivity.
  destruct (error_is_overwritten_by_lookups (ForLedger Transactions 5000)
              (External "sql: no rows in result set") Hmissing)
    as (_ & _ & _ & Haccount & _).
  destruct (Haccount "GA5WBPYA5Y4WAEHXWR2UKO2UO4BUGHUQ74EUPKON2QHV4WRHOIRNKKH2"
              {| Account_ID := 7;
                 Account_Address := "GA5WBPYA5Y4WAEHXWR2UKO2UO4BUGHUQ74EUPKON2QHV4WRHOIRNKKH2" |}
              eq_refl) as [Hcleared Hparts].
  split; [exact Hcleared|]. rewrite Hparts. reflexivity.
Defined.

(** X8 at a chain with a lookup that fails between two that succeed. *)
Lemma chain_composes_witness :
  sq.WhereParts
    (sql (chain [CallForLedger 3; CallForLedger 5000; CallIncludeFailed;
                 CallForAccount "GA5WBPYA5Y4WAEHXWR2UKO2UO4BUGHUQ74EUPKON2QHV4WRHOIRNKKH2"])) =
    [sq.Expr "ht.id >= ? AND ht.id < ?" [sq.Int 12884901888; sq.Int 17179869184];
     sq.Expr "htp.history_account_id = ?" [sq.Int 7]] ∧
  includeFailed
    (chain [CallForLedger 3; CallForLedger 5000; CallIncludeFailed;
            CallForAccount "GA5WBPYA5Y4WAEHXWR2UKO2UO4BUGHUQ74EUPKON2QHV4WRHOIRNKKH2"]) = true.
Proof.
  destruct (chain_composes
              [CallForLedger 3; CallForLedger 5000; CallIncludeFailed;
               CallForAccount "GA5WBPYA5Y4WAEHXWR2UKO2UO4BUGHUQ74EUPKON2QHV4WRHOIRNKKH2"]
              eq_refl) as (Hparts & _ & _ & Hflag).
  split; [rewrite Hparts; reflexivity|rewrite Hflag; reflexivity].
Defined.

(** X10 at the plain query, run twice. *)
Lemma Select_again_witness :
  sq.WhereParts
    (sql (Select (Select Transactions (DestTransactions [])).1.1 (DestTransactions [])).1.1) =
    [successful_only; successful_only].
Proof.
  destruct (Select_again Transactions (DestTransactions []) (DestTransactions [])
              eq_refl eq_refl) as [Htwice _].
  exact (Htwice eq_refl).
Defined.

(** X11 at the id of the failed row of the table: the row is returned. *)
Lemma TransactionsByIDs_index_witness :
  ∃ byID,
    TransactionsByIDs (H1 := ledger.archive) [run.pack (toid.New 3 2 0)] = inr byID ∧
    byID !! run.pack (toid.New 3 2 0) =
      Some {| ID := run.pack (toid.New 3 2 0); TransactionHash := run.hash_b;
              TxResult := run.failed_result; Successful := Some false |}.
Proof.
  destruct (TransactionsByIDs_index (H1 := ledger.archive) [run.pack (toid.New 3 2 0)])
    as [_ Hids].
  destruct Hids as (_ & _ & _ & Hloaded); [discriminate|].
  edestruct Hloaded as (byID & Hmap & Hlookup & _); [vm_compute; reflexivity|].
  exists byID. split; [exact Hmap|]. rewrite Hlookup. vm_compute. reflexivity.
Defined.

(** X12 at a list that names one address twice. *)
Lemma CreateExpAccounts_index_witness :
  ∃ addressToID,
    CreateExpAccounts ["GAOQ"; "GBRP"; "GAOQ"] = inr addressToID ∧
    addressToID !! "GAOQ" = Some 102 ∧ addressToID !! "GBRP" = Some 101.
Proof.
  destruct (CreateExpAccounts_index ["GAOQ"; "GBRP"; "GAOQ"])
    as (_ & _ & _ & _ & _ & Hreturned).
  edestruct Hreturned as (addressToID & Hmap & Hlookup & _); [vm_compute; reflexivity|].
  exists addressToID. split; [exact Hmap|]. rewrite !Hlookup. split; vm_compute; reflexivity.
Defined.

(** X13 at a transaction whose fee the builder refuses: the builder's error
    comes back. *)
Lemma Add_hands_over_normalized_rows_witness :
  (@Add run.wire run.lib ledger.rows [] (ledger.with_fee 4294967295) 123 0).2
    = Fail (External "pq: value out of range").
Proof.
  destruct (@Add_hands_over_normalized_rows run.wire run.lib ledger.rows []
              (ledger.with_fee 4294967295) 123 0%nat) as [Hrow _].
  edestruct Hrow as [_ Hresult]; [vm_compute; reflexivity|].
  rewrite Hresult. vm_compute. reflexivity.
Defined.

(** The codec of the examples keeps the code of a result. *)
Lemma wire_keeps_codes result data :
  run.encode_result result = inr data →
  ∃ decoded, run.decode_result data = inr decoded ∧
             xdr.Code (xdr.Result decoded) = xdr.Code (xdr.Result result).
Proof.
  unfold run.encode_result.
  destruct (Z.eqb_spec (xdr.Code (xdr.Result result)) 0) as [Hzero|_].
  - intros [= <-]. eexists. split; [reflexivity|]. now rewrite Hzero.
  - destruct (Z.eqb_spec (xdr.Code (xdr.Result result)) (-5)) as [Hbad|_]; [|discriminate].
    intros [= <-]. eexists. split; [reflexivity|]. now rewrite Hbad.
Qed.

(** X15 at a transaction that failed: read back, its row passes when failed
    rows are included. *)
Lemma written_row_passes_Select_witness :
  ∃ row,
    transactionToMap (run.transaction_with (run.memo_of 0 None) None (-5)) 123 0
      = Ret (row, 2%nat) ∧
    successful row = false ∧
    check_transaction true (read_back row) = None.
Proof.
  eexists. split; [vm_compute; reflexivity|]. split; [reflexivity|].
  eapply (written_row_passes_Select
            (run.transaction_with (run.memo_of 0 None) None (-5)) 123 0%nat).
  - exact wire_keeps_codes.
  - vm_compute. reflexivity.
Defined.

End more_examples.
